(** * velocitas_lib: a shallow embedding of [src/velocitas_lib/__init__.py]

    The module is a flat collection of utility functions.  Each function is
    embedded below under its Python name.  The Python built-ins the functions
    call ([str.lower], [str.split], slicing, [os.getenv], [json.loads],
    [os.path.join], text-mode file iteration, ...) are modelled first, in
    modules named after the Python module they come from.

    Conventions of the model:
    - a Python [str] is a [string]; its characters are those of [ascii], the
      code points below 128 standing for themselves.  A file holds bytes, and
      text outside ASCII is in the model only as the bytes of its UTF-8
      encoding ([Utf8.valid]).  The case mappings, which depend on what a
      character is, are defined on ASCII text and on nothing else
      ([Str.lower], [Str.capitalize]); the whitespace test is that of
      [str.isspace] on ASCII;
    - a Python [int] is a [Z];
    - a call that may raise returns a [result]: [Return v] or [Raise e];
    - the platform is POSIX ([os.sep] is [/], [os.linesep] is a line feed). *)

From Stdlib Require Import ZArith Lia Ascii String List Bool.
From stdpp Require Import base option list gmap strings.

Local Open Scope Z_scope.

(** ** Exceptions and results *)

(** The exception classes the module can raise, each with its message (or the
    path it is about, for the file-system ones; the codec, for a text that
    does not decode). *)
Inductive exn : Type :=
  | ValueError (msg : string)
  | TypeError (msg : string)
  | IndexError (msg : string)
  | JSONDecodeError (msg : string)
  | UnicodeDecodeError (codec : string)
  | FileNotFoundError (path : string)
  | NotADirectoryError (path : string)
  | IsADirectoryError (path : string)
  | FileExistsError (path : string)
  | OSError (msg : string)
  | ConnectionError (uri : string)
  | RecursionError.

Inductive result (A : Type) : Type :=
  | Return (a : A)
  | Raise (e : exn).
Arguments Return {A} a.
Arguments Raise {A} e.

Global Instance result_ret : MRet result := λ A a, Return a.

Global Instance result_bind : MBind result := λ A B k r,
  match r with
  | Return a => k a
  | Raise e => Raise e
  end.

(** ** Python [str] *)

Module Str.

Definition len (s : string) : Z := Z.of_nat (String.length s).

Definition is_upper (c : ascii) : bool :=
  (65 <=? nat_of_ascii c)%nat && (nat_of_ascii c <=? 90)%nat.

Definition is_lower (c : ascii) : bool :=
  (97 <=? nat_of_ascii c)%nat && (nat_of_ascii c <=? 122)%nat.

Definition lower_char (c : ascii) : ascii :=
  if is_upper c then ascii_of_nat (nat_of_ascii c + 32) else c.

Definition upper_char (c : ascii) : ascii :=
  if is_lower c then ascii_of_nat (nat_of_ascii c - 32) else c.

(** [str.isspace] on ASCII: TAB, LF, VT, FF, CR, the separators FS, GS, RS,
    US, and the space. *)
Definition is_space (c : ascii) : bool :=
  let n := nat_of_ascii c in
  ((9 <=? n)%nat && (n <=? 13)%nat) || ((28 <=? n)%nat && (n <=? 32)%nat).

(** The text is ASCII: every character is a code point below 128. *)
Definition is_ascii_char (c : ascii) : bool := (nat_of_ascii c <? 128)%nat.

Fixpoint is_ascii (s : string) : bool :=
  match s with
  | EmptyString => true
  | String c r => is_ascii_char c && is_ascii r
  end.

(** The case mappings of ASCII text, character by character: the letters
    [A-Z] and [a-z] change case, every other character stays. *)
Fixpoint lower_ascii (s : string) : string :=
  match s with
  | EmptyString => EmptyString
  | String c r => String (lower_char c) (lower_ascii r)
  end.

Definition capitalize_ascii (s : string) : string :=
  match s with
  | EmptyString => EmptyString
  | String c r => String (upper_char c) (lower_ascii r)
  end.

(** [s.lower()], for ASCII text.  Outside ASCII the mapping of Python is that
    of Unicode (one character may become several, and what a character
    becomes may depend on its neighbours); the model has no answer there. *)
Definition lower (s : string) : option string :=
  if is_ascii s then Some (lower_ascii s) else None.

(** [s.capitalize()], for ASCII text: first character upper-cased, the rest
    lower-cased. *)
Definition capitalize (s : string) : option string :=
  if is_ascii s then Some (capitalize_ascii s) else None.

(** Some character of the text is an upper-case letter. *)
Fixpoint has_upper (s : string) : bool :=
  match s with
  | EmptyString => false
  | String c r => is_upper c || has_upper r
  end.

(** [s.split(sep)] for a one-character separator: the pieces between the
    occurrences of [sep]; always at least one piece. *)
Fixpoint split (sep : ascii) (s : string) : list string :=
  match s with
  | EmptyString => [EmptyString]
  | String c r =>
      if Ascii.eqb c sep then EmptyString :: split sep r
      else match split sep r with
           | piece :: pieces => String c piece :: pieces
           | [] => [String c EmptyString]
           end
  end.

(** [sep.join(pieces)] *)
Definition join (sep : string) (pieces : list string) : string :=
  String.concat sep pieces.
Global Arguments join : simpl never.

(** [c in s], for a character *)
Fixpoint has_char (c : ascii) (s : string) : bool :=
  match s with
  | EmptyString => false
  | String d r => Ascii.eqb d c || has_char c r
  end.

(** [s.startswith(p)] *)
Definition startswith (p s : string) : bool := String.prefix p s.

(** [needle in hay]: [needle] occurs in [hay] as a contiguous substring. *)
Fixpoint contains (needle hay : string) : bool :=
  String.prefix needle hay ||
  match hay with
  | EmptyString => false
  | String _ r => contains needle r
  end.

(** [s.endswith(c)], for a character *)
Fixpoint endswith_char (c : ascii) (s : string) : bool :=
  match s with
  | EmptyString => false
  | String d EmptyString => Ascii.eqb d c
  | String _ r => endswith_char c r
  end.

Fixpoint drop (n : nat) (s : string) : string :=
  match n, s with
  | O, _ => s
  | S _, EmptyString => EmptyString
  | S m, String _ r => drop m r
  end.

Fixpoint take (n : nat) (s : string) : string :=
  match n, s with
  | O, _ => EmptyString
  | S _, EmptyString => EmptyString
  | S m, String c r => String c (take m r)
  end.

(** The index a slice bound denotes: a negative bound counts from the end,
    and the result is clamped to [0 .. n]. *)
Definition slice_index (n bound : Z) : nat :=
  Z.to_nat (if bound <? 0 then Z.max (bound + n) 0 else Z.min bound n).

(** [s[start:]] *)
Definition slice_from (s : string) (start : Z) : string :=
  drop (slice_index (len s) start) s.

(** [s.lstrip(chars)] and [s.rstrip(chars)], the set of characters given as a
    predicate; [s.strip()] and [s.rstrip()] use [is_space]. *)
Fixpoint lstrip_by (p : ascii → bool) (s : string) : string :=
  match s with
  | EmptyString => EmptyString
  | String c r => if p c then lstrip_by p r else s
  end.

Fixpoint rstrip_by (p : ascii → bool) (s : string) : string :=
  match s with
  | EmptyString => EmptyString
  | String c r =>
      match rstrip_by p r with
      | EmptyString => if p c then EmptyString else String c EmptyString
      | r' => String c r'
      end
  end.

Definition rstrip (s : string) : string := rstrip_by is_space s.

Definition strip (s : string) : string := lstrip_by is_space (rstrip s).

(** [s.replace(old, new)] for a non-empty [old]: the occurrences of [old]
    are found from the left and do not overlap.  [skip] counts the characters
    of an occurrence that was just replaced and are still to be passed. *)
Fixpoint replace_go (old new : string) (skip : nat) (s : string) : string :=
  match s with
  | EmptyString => EmptyString
  | String c r =>
      match skip with
      | S k => replace_go old new k r
      | O =>
          if String.prefix old s
          then new +:+ replace_go old new (String.length old - 1) r
          else String c (replace_go old new 0 r)
      end
  end.

(** A byte that goes on with a character of more than one byte in UTF-8. *)
Definition is_continuation (c : ascii) : bool :=
  (128 <=? nat_of_ascii c)%nat && (nat_of_ascii c <=? 191)%nat.

(** With an empty [old], [new] is inserted before every character and at the
    end; a character that is held as several bytes is not cut. *)
Fixpoint intersperse (new s : string) : string :=
  match s with
  | EmptyString => new
  | String c r =>
      (if is_continuation c then EmptyString else new)
      +:+ String c (intersperse new r)
  end.

Definition replace (old new s : string) : string :=
  match old with
  | EmptyString => intersperse new s
  | _ => replace_go old new 0 s
  end.

Definition hex_digit (n : nat) : ascii :=
  ascii_of_nat (if (n <? 10)%nat then 48 + n else 87 + n).

(** [repr(s)]: the string in quotes, single ones unless it holds a single
    and no double quote; the quote, the backslash and the control characters
    are escaped. *)
Definition repr_char (quote c : ascii) : string :=
  let n := nat_of_ascii c in
  if Ascii.eqb c quote || Ascii.eqb c "\" then String "\" (String c EmptyString)
  else if (n =? 9)%nat then "\t"
  else if (n =? 10)%nat then "\n"
  else if (n =? 13)%nat then "\r"
  else if (n <? 32)%nat || (n =? 127)%nat
       then String "\" (String "x" (String (hex_digit (n / 16))
                                     (String (hex_digit (n mod 16)) EmptyString)))
  else String c EmptyString.

Fixpoint repr_body (quote : ascii) (s : string) : string :=
  match s with
  | EmptyString => EmptyString
  | String c r => repr_char quote c +:+ repr_body quote r
  end.

Definition repr (s : string) : string :=
  let quote : ascii :=
    if has_char "'" s && negb (has_char (ascii_of_nat 34) s)
    then ascii_of_nat 34 else "'"%char in
  String quote (repr_body quote s) +:+ String quote EmptyString.

End Str.

(** ** The [utf-8] codec *)

Module Utf8.

Definition in_range (lo hi : nat) (c : ascii) : bool :=
  (lo <=? nat_of_ascii c)%nat && (nat_of_ascii c <=? hi)%nat.

(** The bytes decode, in the strict mode that is the default of [open]: they
    are a sequence of well-formed characters.  A character is one byte below
    [0x80], or a leading byte and one to three continuation bytes, where the
    encodings that are longer than needed, the surrogates and the code points
    above [0x10FFFF] are left out. *)
Fixpoint valid (s : string) : bool :=
  match s with
  | EmptyString => true
  | String a r =>
      if in_range 0 127 a then valid r
      else
        match r with
        | EmptyString => false
        | String b r1 =>
            if in_range 194 223 a then Str.is_continuation b && valid r1
            else
              match r1 with
              | EmptyString => false
              | String c r2 =>
                  if (in_range 224 224 a && in_range 160 191 b)
                     || (in_range 225 236 a && Str.is_continuation b)
                     || (in_range 237 237 a && in_range 128 159 b)
                     || (in_range 238 239 a && Str.is_continuation b)
                  then Str.is_continuation c && valid r2
                  else
                    match r2 with
                    | EmptyString => false
                    | String d r3 =>
                        ((in_range 240 240 a && in_range 144 191 b)
                         || (in_range 241 243 a && Str.is_continuation b)
                         || (in_range 244 244 a && in_range 128 143 b))
                        && Str.is_continuation c && Str.is_continuation d
                        && valid r3
                    end
              end
        end
  end.

End Utf8.

(** ** [os.environ] *)

(** The process environment: variable names to values. *)
Abbreviation environ := (gmap string string).

Module Os.

(** [os.getenv(name)]: the value, or [None] *)
Definition getenv (env : environ) (name : string) : option string :=
  env !! name.

End Os.

(** [not var], for [var] a [str] or [None] *)
Definition falsy (var : option string) : bool :=
  match var with
  | None => true
  | Some EmptyString => true
  | Some _ => false
  end.

(** ** [json] *)

Module Json.

(** The Python values [json.loads] builds.  A [dict] keeps its keys in
    insertion order; a float keeps the text of its literal. *)
#[warnings="-register-all"]
Inductive value : Type :=
  | VNone
  | VBool (b : bool)
  | VInt (n : Z)
  | VFloat (literal : string)
  | VStr (s : string)
  | VList (items : list value)
  | VDict (pairs : list (string * value)).

(** [isinstance(v, dict)] and [isinstance(v, list)] *)
Definition is_dict (v : value) : bool :=
  match v with VDict _ => true | _ => false end.

Definition is_list (v : value) : bool :=
  match v with VList _ => true | _ => false end.

(** [d[key] = v] on a [dict]: a key that is present keeps its place. *)
Fixpoint dict_set (d : list (string * value)) (key : string) (v : value)
  : list (string * value) :=
  match d with
  | [] => [(key, v)]
  | (k, w) :: rest =>
      if String.eqb k key then (k, v) :: rest else (k, w) :: dict_set rest key v
  end.

(** [dict(pairs)] *)
Definition dict_of_pairs (pairs : list (string * value)) : list (string * value) :=
  fold_left (λ d kv, dict_set d kv.1 kv.2) pairs [].

Definition quote : ascii := ascii_of_nat 34.

Definition is_ws (c : ascii) : bool :=
  let n := nat_of_ascii c in
  (n =? 32)%nat || (n =? 9)%nat || (n =? 10)%nat || (n =? 13)%nat.

Definition skip_ws (s : string) : string := Str.lstrip_by is_ws s.

Definition is_digit (c : ascii) : bool :=
  (48 <=? nat_of_ascii c)%nat && (nat_of_ascii c <=? 57)%nat.

Definition hex_value (c : ascii) : option N :=
  let n := nat_of_ascii c in
  if is_digit c then Some (N.of_nat (n - 48))
  else if (97 <=? n)%nat && (n <=? 102)%nat then Some (N.of_nat (n - 87))
  else if (65 <=? n)%nat && (n <=? 70)%nat then Some (N.of_nat (n - 55))
  else None.

Definition hex4 (a b c d : ascii) : option N :=
  a ← hex_value a; b ← hex_value b; c ← hex_value c; d ← hex_value d;
  Some (((a * 16 + b) * 16 + c) * 16 + d)%N.

Definition byte_char (n : N) : ascii := ascii_of_N n.

(** [chr(cp)] as text: an ASCII code point is its character, a larger one is
    written as its UTF-8 bytes. *)
Definition chr (cp : N) : string :=
  (if cp <? 128 then String (byte_char cp) EmptyString
   else if cp <? 2048 then
     String (byte_char (192 + cp / 64))
       (String (byte_char (128 + cp mod 64)) EmptyString)
   else if cp <? 65536 then
     String (byte_char (224 + cp / 4096))
       (String (byte_char (128 + (cp / 64) mod 64))
          (String (byte_char (128 + cp mod 64)) EmptyString))
   else
     String (byte_char (240 + cp / 262144))
       (String (byte_char (128 + (cp / 4096) mod 64))
          (String (byte_char (128 + (cp / 64) mod 64))
             (String (byte_char (128 + cp mod 64)) EmptyString))))%N.

(** The second half of a surrogate pair, when the text goes on with one. *)
Definition low_surrogate (s : string) : option (N * string) :=
  match s with
  | String "\" (String "u" (String a (String b (String c (String d r))))) =>
      match hex4 a b c d with
      | Some lo => if ((56320 <=? lo) && (lo <=? 57343))%N then Some (lo, r) else None
      | None => None
      end
  | _ => None
  end.

(** The text of a string literal after its opening quote: the decoded string
    and what follows the closing quote. *)
Fixpoint scanstring (fuel : nat) (s : string) : result (string * string) :=
  match fuel, s with
  | O, _ => Raise RecursionError
  | _, EmptyString => Raise (JSONDecodeError "Unterminated string starting at")
  | S fuel, String c r =>
      if Ascii.eqb c quote then Return (EmptyString, r)
      else if Ascii.eqb c "\" then
        match r with
        | EmptyString => Raise (JSONDecodeError "Unterminated string starting at")
        | String e r1 =>
            if Ascii.eqb e "u" then
              match r1 with
              | String h1 (String h2 (String h3 (String h4 r2))) =>
                  match hex4 h1 h2 h3 h4 with
                  | None => Raise (JSONDecodeError "Invalid \uXXXX escape")
                  | Some hi =>
                      let '(cp, r3) :=
                        match low_surrogate r2 with
                        | Some (lo, r3) =>
                            if ((55296 <=? hi) && (hi <=? 56319))%N
                            then (65536 + (hi - 55296) * 1024 + (lo - 56320), r3)%N
                            else (hi, r2)
                        | None => (hi, r2)
                        end in
                      '(body, rest) ← scanstring fuel r3;
                      Return (chr cp +:+ body, rest)
                  end
              | _ => Raise (JSONDecodeError "Invalid \uXXXX escape")
              end
            else
              let unescaped : option ascii :=
                if Ascii.eqb e quote then Some quote
                else if Ascii.eqb e "\" then Some "\"%char
                else if Ascii.eqb e "/" then Some "/"%char
                else if Ascii.eqb e "b" then Some (ascii_of_nat 8)
                else if Ascii.eqb e "f" then Some (ascii_of_nat 12)
                else if Ascii.eqb e "n" then Some (ascii_of_nat 10)
                else if Ascii.eqb e "r" then Some (ascii_of_nat 13)
                else if Ascii.eqb e "t" then Some (ascii_of_nat 9)
                else None in
              match unescaped with
              | None => Raise (JSONDecodeError "Invalid \escape")
              | Some u =>
                  '(body, rest) ← scanstring fuel r1;
                  Return (String u body, rest)
              end
        end
      else if (nat_of_ascii c <? 32)%nat
      then Raise (JSONDecodeError "Invalid control character at")
      else
        '(body, rest) ← scanstring fuel r;
        Return (String c body, rest)
  end.

(** The digits a text starts with, and the rest. *)
Fixpoint span_digits (s : string) : string * string :=
  match s with
  | String c r =>
      if is_digit c then let '(ds, rest) := span_digits r in (String c ds, rest)
      else (EmptyString, s)
  | EmptyString => (EmptyString, EmptyString)
  end.

(** [int(digits)] *)
Definition int_of_digits (ds : string) : Z :=
  fold_left (λ acc c, acc * 10 + Z.of_nat (nat_of_ascii c - 48))
            (list_ascii_of_string ds) 0.

(** The number a text starts with, and the rest: an optional minus sign, an
    integer part (a lone zero, or digits that do not start with zero), then an
    optional fraction (a dot and digits) and an optional exponent (e or E, an
    optional sign, digits). *)
Definition match_number (s : string) : option (value * string) :=
  let '(sign, s1) :=
    match s with
    | String "-" r => ("-", r)
    | _ => (EmptyString, s)
    end in
  let integer : option (string * string) :=
    match s1 with
    | String "0" r => Some ("0", r)
    | String c _ => if is_digit c then Some (span_digits s1) else None
    | EmptyString => None
    end in
  match integer with
  | None => None
  | Some (ds, s2) =>
      let '(frac, s3) :=
        match s2 with
        | String "." r =>
            match span_digits r with
            | (EmptyString, _) => (EmptyString, s2)
            | (fs, rest) => (String "." fs, rest)
            end
        | _ => (EmptyString, s2)
        end in
      let '(exp, s4) :=
        match s3 with
        | String e r =>
            if Ascii.eqb e "e" || Ascii.eqb e "E" then
              let '(esign, r1) :=
                match r with
                | String "+" r1 => ("+", r1)
                | String "-" r1 => ("-", r1)
                | _ => (EmptyString, r)
                end in
              match span_digits r1 with
              | (EmptyString, _) => (EmptyString, s3)
              | (es, rest) => (String e (esign +:+ es), rest)
              end
            else (EmptyString, s3)
        | EmptyString => (EmptyString, s3)
        end in
      match frac, exp with
      | EmptyString, EmptyString =>
          Some (VInt (if String.eqb sign "-" then - int_of_digits ds
                      else int_of_digits ds), s4)
      | _, _ => Some (VFloat (sign +:+ ds +:+ frac +:+ exp), s4)
      end
  end.

(** A value at the start of the text, and the rest of the text.  [fuel]
    bounds the nesting of the calls, as the interpreter's recursion limit
    does. *)
Fixpoint scan_once (fuel : nat) (s : string) : result (value * string) :=
  match fuel with
  | O => Raise RecursionError
  | S fuel =>
      match s with
      | EmptyString => Raise (JSONDecodeError "Expecting value")
      | String c r =>
          if Ascii.eqb c quote then
            '(str, rest) ← scanstring (S (String.length r)) r;
            Return (VStr str, rest)
          else if Ascii.eqb c "{" then
            match skip_ws r with
            | String "}" rest => Return (VDict [], rest)
            | r' =>
                '(pairs, rest) ← object_pairs fuel r';
                Return (VDict (dict_of_pairs pairs), rest)
            end
          else if Ascii.eqb c "[" then
            match skip_ws r with
            | String "]" rest => Return (VList [], rest)
            | r' =>
                '(items, rest) ← array_items fuel r';
                Return (VList items, rest)
            end
          else if Str.startswith "null" s then Return (VNone, Str.drop 4 s)
          else if Str.startswith "true" s then Return (VBool true, Str.drop 4 s)
          else if Str.startswith "false" s then Return (VBool false, Str.drop 5 s)
          else
            match match_number s with
            | Some number => Return number
            | None =>
                if Str.startswith "NaN" s
                then Return (VFloat "NaN", Str.drop 3 s)
                else if Str.startswith "Infinity" s
                then Return (VFloat "Infinity", Str.drop 8 s)
                else if Str.startswith "-Infinity" s
                then Return (VFloat "-Infinity", Str.drop 9 s)
                else Raise (JSONDecodeError "Expecting value")
            end
      end
  end
with array_items (fuel : nat) (s : string) : result (list value * string) :=
  match fuel with
  | O => Raise RecursionError
  | S fuel =>
      '(v, r) ← scan_once fuel s;
      match skip_ws r with
      | String "]" rest => Return ([v], rest)
      | String "," rest =>
          '(vs, rest') ← array_items fuel (skip_ws rest);
          Return (v :: vs, rest')
      | _ => Raise (JSONDecodeError "Expecting ',' delimiter")
      end
  end
with object_pairs (fuel : nat) (s : string)
  : result (list (string * value) * string) :=
  match fuel with
  | O => Raise RecursionError
  | S fuel =>
      match s with
      | String c r =>
          if Ascii.eqb c quote then
            '(key, r1) ← scanstring (S (String.length r)) r;
            match skip_ws r1 with
            | String ":" r2 =>
                '(v, r3) ← scan_once fuel (skip_ws r2);
                match skip_ws r3 with
                | String "}" rest => Return ([(key, v)], rest)
                | String "," rest =>
                    '(kvs, rest') ← object_pairs fuel (skip_ws rest);
                    Return ((key, v) :: kvs, rest')
                | _ => Raise (JSONDecodeError "Expecting ',' delimiter")
                end
            | _ => Raise (JSONDecodeError "Expecting ':' delimiter")
            end
          else Raise (JSONDecodeError
                        "Expecting property name enclosed in double quotes")
      | EmptyString =>
          Raise (JSONDecodeError
                   "Expecting property name enclosed in double quotes")
      end
  end.

(** [json.loads(s)]: one value, with white space around it and nothing else.
    The budget grows with the text, so that a text is never too deep for
    it. *)
Definition loads (s : string) : result value :=
  '(v, rest) ← scan_once (S (String.length s)) (skip_ws s);
  match skip_ws rest with
  | EmptyString => Return v
  | _ => Raise (JSONDecodeError "Extra data")
  end.

End Json.

(** ** [os.path] on POSIX *)

Module PosixPath.

Definition is_sep (c : ascii) : bool := Ascii.eqb c "/".

(** [os.path.join(path, b)] for one more component: an absolute component
    replaces what came before, and a separator is put in between unless
    [path] is empty or ends with one. *)
Definition join2 (path b : string) : string :=
  if Str.startswith "/" b || String.eqb path EmptyString then b
  else if Str.endswith_char "/" path then path +:+ b
  else path +:+ "/" +:+ b.

(** [os.path.join(a, *p)] *)
Definition join (a : string) (p : list string) : string :=
  fold_left join2 p a.

(** [(p[:i], p[i:])] for [i = p.rfind('/') + 1] *)
Fixpoint rpartition (p : string) : string * string :=
  match p with
  | EmptyString => (EmptyString, EmptyString)
  | String c r =>
      if Str.has_char "/" r
      then let '(head, tail) := rpartition r in (String c head, tail)
      else if is_sep c then (String c EmptyString, r)
      else (EmptyString, p)
  end.

(** [head == sep * len(head)] *)
Fixpoint all_seps (s : string) : bool :=
  match s with
  | EmptyString => true
  | String c r => is_sep c && all_seps r
  end.

(** [os.path.split(p)]: the directory part, without the separators it ends
    with unless it is the root, and the last component. *)
Definition split (p : string) : string * string :=
  let '(head, tail) := rpartition p in
  if negb (String.eqb head EmptyString) && negb (all_seps head)
  then (Str.rstrip_by is_sep head, tail)
  else (head, tail).

(** [os.path.dirname(p)] *)
Definition dirname (p : string) : string := (split p).1.

End PosixPath.

(** ** The file system, the network, and text files *)

(** What the functions with side effects act on.  Files and directories are
    kept under the path as the program spells it ([.] and [..] components and
    links are not resolved); a relative path is below the working directory,
    which exists.  [network] holds the body the server answers a GET with.
    [writes_left] is what is left of the device for writes: the number of
    characters it has room for, [None] for a device that does not fail. *)
Record world : Type := World {
  files : gmap string string;
  dirs : gset string;
  network : gmap string string;
  writes_left : option nat
}.

Definition with_files (w : world) (fs : gmap string string) : world :=
  World fs (dirs w) (network w) (writes_left w).

Definition with_dirs (w : world) (ds : gset string) : world :=
  World (files w) ds (network w) (writes_left w).

Definition with_writes_left (w : world) (n : option nat) : world :=
  World (files w) (dirs w) (network w) n.

(** A computation with side effects: it ends in a value or an exception, and
    in both cases leaves a world behind. *)
Definition io (A : Type) : Type := world → result A * world.

Global Instance io_ret : MRet io := λ A a w, (Return a, w).

Global Instance io_bind : MBind io := λ A B k m w,
  match m w with
  | (Return a, w') => k a w'
  | (Raise e, w') => (Raise e, w')
  end.

Definition raise {A : Type} (e : exn) : io A := λ w, (Raise e, w).

(** [for x in xs: body(x)] *)
Fixpoint for_each {A : Type} (xs : list A) (body : A → io unit) : io unit :=
  match xs with
  | [] => mret tt
  | x :: rest => _ ← body x; for_each rest body
  end.

Module Fs.

(** The name a directory is kept under: without the separators it ends with. *)
Definition norm (p : string) : string :=
  if PosixPath.all_seps p then p else Str.rstrip_by PosixPath.is_sep p.

Definition is_root (p : string) : bool :=
  negb (String.eqb p EmptyString) && PosixPath.all_seps p.

(** [os.path.isdir(p)] *)
Definition isdir (w : world) (p : string) : bool :=
  is_root p || (negb (String.eqb p EmptyString) && bool_decide (norm p ∈ dirs w)).

Definition isfile (w : world) (p : string) : bool :=
  bool_decide (is_Some (files w !! p)).

(** [os.path.exists(p)] *)
Definition exists_ (w : world) (p : string) : bool := isdir w p || isfile w p.

(** The directory an entry is made in exists: it is the working directory,
    or a directory of the world. *)
Definition parent_ok (w : world) (p : string) : bool :=
  let parent := PosixPath.dirname (norm p) in
  String.eqb parent EmptyString || isdir w parent.

(** [os.mkdir(p)] *)
Definition mkdir (p : string) : io unit := λ w,
  if String.eqb p EmptyString then (Raise (FileNotFoundError p), w)
  else if exists_ w p then (Raise (FileExistsError p), w)
  else if parent_ok w p then (Return tt, with_dirs w ({[norm p]} ∪ dirs w))
  else if isfile w (PosixPath.dirname (norm p)) then (Raise (NotADirectoryError p), w)
  else (Raise (FileNotFoundError p), w).

(** [os.makedirs(name, exist_ok=True)]: the missing directories above [name]
    first, then [name]; that [name] is a directory already is no error.
    [fuel] bounds the recursion, which goes up one component a call. *)
Fixpoint makedirs_go (fuel : nat) (name : string) : io unit := λ w,
  match fuel with
  | O => (Raise RecursionError, w)
  | S fuel =>
      let '(head, tail) := PosixPath.split name in
      let '(head, tail) :=
        if String.eqb tail EmptyString then PosixPath.split head else (head, tail) in
      let above : bool :=
        negb (String.eqb head EmptyString) && negb (String.eqb tail EmptyString)
        && negb (exists_ w head) in
      let '(r, w1) :=
        if above then
          match makedirs_go fuel head w with
          | (Raise (FileExistsError _), w') => (Return tt, w')
          | other => other
          end
        else (Return tt, w) in
      match r with
      | Raise e => (Raise e, w1)
      | Return _ =>
          if above && String.eqb tail "." then (Return tt, w1)
          else
            match mkdir name w1 with
            | (Raise e, w2) => if isdir w2 name then (Return tt, w2) else (Raise e, w2)
            | done => done
            end
      end
  end.

Definition makedirs (name : string) : io unit :=
  makedirs_go (S (String.length name)) name.

(** [open(path, 'w')] and [open(path, 'wb')]: the file is created, or emptied
    when it exists.  The handle is the path. *)
Definition open_write (path : string) : io string := λ w,
  if isfile w path
  then (Return path, with_files w (<[path := EmptyString]> (files w)))
  else if String.eqb path EmptyString then (Raise (FileNotFoundError path), w)
  else if isdir w path || Str.endswith_char "/" path
  then (Raise (IsADirectoryError path), w)
  else if parent_ok w path
  then (Return path, with_files w (<[path := EmptyString]> (files w)))
  else (Raise (FileNotFoundError path), w).

(** [file.write(data)]: [data] is appended.  A device that has no room for
    all of [data] takes the characters it has room for, and the write fails.
    The file objects of Python keep what is written in a buffer, so that the
    error of the device comes up at a later [write], or when the file is
    closed at the end of the [with] block; the functions below write and
    close in one block and let the error pass, so that for them it is the
    same error and the same file. *)
Definition write (file data : string) : io unit := λ w,
  let appended (part : string) : world :=
    with_files w
      (<[file := default EmptyString (files w !! file) +:+ part]> (files w)) in
  match writes_left w with
  | None => (Return tt, appended data)
  | Some room =>
      if (String.length data <=? room)%nat
      then (Return tt,
            with_writes_left (appended data)
              (Some (room - String.length data)%nat))
      else (Raise (OSError "No space left on device"),
            with_writes_left (appended (Str.take room data)) (Some 0%nat))
  end.

Definition CR : ascii := ascii_of_nat 13.
Definition LF : ascii := ascii_of_nat 10.

(** Reading in text mode with the default [newline=None]: a carriage return,
    alone or before a line feed, is read as one line feed. *)
Fixpoint universal_newlines (s : string) : string :=
  match s with
  | EmptyString => EmptyString
  | String c r =>
      if Ascii.eqb c CR then
        match r with
        | String d r' =>
            if Ascii.eqb d LF then String LF (universal_newlines r')
            else String LF (universal_newlines r)
        | EmptyString => String LF EmptyString
        end
      else String c (universal_newlines r)
  end.

(** The lines of a text, each with the line feed that ends it. *)
Fixpoint lines (s : string) : list string :=
  match s with
  | EmptyString => []
  | String c r =>
      if Ascii.eqb c LF then String c EmptyString :: lines r
      else match lines r with
           | l :: ls => String c l :: ls
           | [] => [String c EmptyString]
           end
  end.

(** Some part of [path] that ends before a separator is the name of a file:
    the path leads through a file as if it were a directory.  [passed] is the
    part of the path that was gone through. *)
Fixpoint below_file_go (w : world) (passed rest : string) : bool :=
  match rest with
  | EmptyString => false
  | String c r =>
      (PosixPath.is_sep c && isfile w passed)
      || below_file_go w (passed +:+ String c EmptyString) r
  end.

Definition below_file (w : world) (path : string) : bool :=
  below_file_go w EmptyString path.

(** [open(path, encoding='utf-8')], iterated over: the lines of the file.
    The bytes of the file are decoded as they are read; all of them are read
    before the iteration ends, and bytes that do not decode end it with an
    error. *)
Definition open_read (path : string) : io (list string) := λ w,
  match files w !! path with
  | Some content =>
      if Utf8.valid content
      then (Return (lines (universal_newlines content)), w)
      else (Raise (UnicodeDecodeError "utf-8"), w)
  | None =>
      if isdir w path then (Raise (IsADirectoryError path), w)
      else if below_file w path then (Raise (NotADirectoryError path), w)
      else (Raise (FileNotFoundError path), w)
  end.

End Fs.

Module Requests.

(** [requests.get(uri, timeout=30)]: the body of the answer, or an error
    when there is none. *)
Definition get (uri : string) : io string := λ w,
  match network w !! uri with
  | Some body => (Return body, w)
  | None => (Raise (ConnectionError uri), w)
  end.

(** [iter_slices(content, chunk_size)]: the content in pieces of
    [chunk_size], the last one possibly shorter.  [fuel] bounds the number
    of pieces. *)
Fixpoint iter_slices (fuel : nat) (content : string) (chunk_size : nat)
  : list string :=
  match fuel, content with
  | O, _ => []
  | _, EmptyString => []
  | S fuel, _ =>
      Str.take chunk_size content
      :: iter_slices fuel (Str.drop chunk_size content) chunk_size
  end.

(** [response.iter_content(chunk_size)] of a response that was read whole *)
Definition iter_content (content : string) (chunk_size : nat) : list string :=
  iter_slices (String.length content) content
    (if (chunk_size =? 0)%nat then String.length content else chunk_size).

End Requests.

(** ** The functions of [velocitas_lib] *)

(** [to_camel_case(snake_str)]; it has a value where the case mappings of
    the model have one, which is on ASCII text. *)
Definition to_camel_case (snake_str : string) : option string :=
  lowered ← Str.lower snake_str;
  pieces ← mapM Str.capitalize (Str.split "-" lowered);
  Some (Str.join "" pieces).

(** [create_truncated_string(input, length)] *)
Definition create_truncated_string (input : string) (length : Z) : string :=
  if Str.len input <? length then input
  else "..." +:+ Str.slice_from input (- length + 3).

(** [replace_in_file(file_path, text, replacement)] *)
Definition replace_in_file (file_path text replacement : string) : io unit :=
  lines ← Fs.open_read file_path;
  let buffer :=
    fold_left (λ buffer line, buffer ++ [Str.replace text replacement line])
              lines [] in
  file ← Fs.open_write file_path;
  for_each buffer (λ line, Fs.write file line).

(** [get_valid_arch(arch)] *)
Definition get_valid_arch (arch : string) : result string :=
  if Str.contains "x86_64" arch || Str.contains "amd64" arch
  then Return "x86_64"
  else if Str.contains "aarch64" arch || Str.contains "arm64" arch
  then Return "aarch64"
  else Raise (ValueError ("Unknown architecture: " +:+ arch)).

(** The state of the loop of [capture_textfile_area]. *)
Record capture_state : Type := CaptureState {
  area_content : list string;
  is_capturing : bool
}.

(** One turn of the loop of [capture_textfile_area]. *)
Definition capture_step (start_line end_line : string)
    (map_fn : option (string → string)) (st : capture_state) (line : string)
  : capture_state :=
  if String.eqb (Str.strip line) start_line
  then CaptureState (area_content st) true
  else if String.eqb (Str.strip line) end_line
  then CaptureState (area_content st) false
  else if is_capturing st then
    let line := Str.rstrip line in
    let line := match map_fn with Some f => f line | None => line end in
    CaptureState (area_content st ++ [line]) (is_capturing st)
  else st.

(** [capture_textfile_area(file, start_line, end_line, map_fn)]; the file is
    the sequence of lines its iteration gives. *)
Definition capture_loop (start_line end_line : string)
    (map_fn : option (string → string)) (file : list string) : capture_state :=
  fold_left (capture_step start_line end_line map_fn) file
            (CaptureState [] false).

Definition capture_textfile_area (file : list string)
    (start_line end_line : string) (map_fn : option (string → string))
  : list string :=
  area_content (capture_loop start_line end_line map_fn file).

(** [require_env(name)] *)
Definition require_env (env : environ) (name : string) : result string :=
  let var := Os.getenv env name in
  if falsy var
  then Raise (ValueError ("Environment variable " +:+ Str.repr name +:+ " not set!"))
  else Return (default EmptyString var).

(** [get_workspace_dir()] *)
Definition get_workspace_dir (env : environ) : result string :=
  require_env env "VELOCITAS_WORKSPACE_DIR".

(** [list[i]] *)
Definition list_getitem (items : list Json.value) (i : Z) : result Json.value :=
  let n := Z.of_nat (length items) in
  let j := if i <? 0 then i + n else i in
  if (j <? 0) || (n <=? j) then Raise (IndexError "list index out of range")
  else match items !! Z.to_nat j with
       | Some v => Return v
       | None => Raise (IndexError "list index out of range")
       end.

(** [get_app_manifest()] *)
Definition get_app_manifest (env : environ) : result Json.value :=
  text ← require_env env "VELOCITAS_APP_MANIFEST";
  manifest_data ← Json.loads text;
  if Json.is_dict manifest_data then Return manifest_data
  else
    match manifest_data with
    | Json.VList items =>
        first ← list_getitem items 0;
        if Json.is_dict first then Return first
        else Raise (TypeError "Manifest must be a dict or array!")
    | _ => Raise (TypeError "Manifest must be a dict or array!")
    end.

(** [get_package_path()] *)
Definition get_package_path (env : environ) : result string :=
  require_env env "VELOCITAS_PACKAGE_DIR".

(** [get_project_cache_dir()] *)
Definition get_project_cache_dir (env : environ) : result string :=
  require_env env "VELOCITAS_CACHE_DIR".

(** [get_cache_data()] *)
Definition get_cache_data (env : environ) : result Json.value :=
  text ← require_env env "VELOCITAS_CACHE_DATA";
  cache_data ← Json.loads text;
  if negb (Json.is_dict cache_data)
  then Raise (TypeError "VELOCITAS_CACHE_DATA has to be a JSON object!")
  else Return cache_data.

(** [get_log_file_name(service_id, runtime_id)] *)
Definition get_log_file_name (env : environ) (service_id runtime_id : string)
  : result string :=
  workspace_dir ← get_workspace_dir env;
  Return (PosixPath.join workspace_dir
            ["logs"; runtime_id; service_id +:+ ".log"]).

(** [get_programming_language()] *)
Definition get_programming_language (env : environ) : result string :=
  require_env env "language".

(** [create_log_file(service_id, runtime_id)] *)
Definition create_log_file (env : environ) (service_id runtime_id : string)
  : io string := λ w,
  match get_log_file_name env service_id runtime_id with
  | Raise e => (Raise e, w)
  | Return log_file_name =>
      (_ ← Fs.makedirs (PosixPath.dirname log_file_name);
       Fs.open_write log_file_name) w
  end.

Definition chunk_size : nat := 8 * 1024.

(** [download_file(uri, local_file_path)] *)
Definition download_file (uri local_file_path : string) : io unit :=
  infile ← Requests.get uri;
  _ ← Fs.makedirs (PosixPath.split local_file_path).1;
  outfile ← Fs.open_write local_file_path;
  for_each (Requests.iter_content infile chunk_size)
           (λ chunk, Fs.write outfile chunk).

(** ** The vocabulary of the specification *)

(** [needle] occurs in [hay]: some text, then [needle], then some text. *)
Definition occurs_in (needle hay : string) : Prop :=
  ∃ before after : string, hay = before +:+ needle +:+ after.

(** After the lines [before], a region is open: one of them is a start
    marker, and no line after it is an end marker. *)
Definition region_open (start_line end_line : string) (before : list string)
  : Prop :=
  ∃ (pre : list string) (marker : string) (between : list string),
    before = pre ++ marker :: between ∧
    Str.strip marker = start_line ∧
    Forall (λ line, Str.strip line ≠ end_line) between.

(** A line is captured when it comes in an open region and is no marker. *)
Definition captured (start_line end_line : string) (before : list string)
    (line : string) : Prop :=
  region_open start_line end_line before ∧
  Str.strip line ≠ start_line ∧ Str.strip line ≠ end_line.

(** What a captured line adds to the result. *)
Definition emitted (map_fn : option (string → string)) (line : string) : string :=
  match map_fn with
  | Some f => f (Str.rstrip line)
  | None => Str.rstrip line
  end.

(** The contract of an accessor of the environment variable [name]: it
    fails, with a [ValueError], exactly when the variable is unset or empty,
    and returns the value of the variable otherwise. *)
Definition env_contract (accessor : environ → result string) (name : string)
  : Prop :=
  ∀ env : environ,
    (∀ v, env !! name = Some v → v ≠ EmptyString → accessor env = Return v) ∧
    (env !! name = None ∨ env !! name = Some EmptyString →
     ∃ msg, accessor env = Raise (ValueError msg)) ∧
    ((∃ e, accessor env = Raise e) ↔
     env !! name = None ∨ env !! name = Some EmptyString).

(** What [to_camel_case] returns for ASCII text ([to_camel_case_ascii]
    below): the pieces between the hyphens of the lower-cased text, each
    capitalized, one after the other. *)
Definition camel_case_ascii (s : string) : string :=
  Str.join "" (map Str.capitalize_ascii (Str.split "-" (Str.lower_ascii s))).

(** The text does not begin with a lower-case letter: upper-casing leaves
    its first character as it is. *)
Definition upper_first (s : string) : Prop :=
  match s with
  | EmptyString => True
  | String c _ => Str.upper_char c = c
  end.

(** A directory name as a prefix of what is joined to it: with one
    separator at its end, unless it is empty. *)
Definition with_sep (p : string) : string :=
  if String.eqb p EmptyString || Str.endswith_char "/" p then p else p +:+ "/".

(** A text in double quotes, as a JSON text spells a string. *)
Definition quoted (s : string) : string :=
  String Json.quote (s +:+ String Json.quote EmptyString).

(** What [replace_in_file] writes for a file of the given content: the lines
    as text mode reads them, each with [text] replaced. *)
Definition rewritten_lines (text replacement content : string) : list string :=
  map (Str.replace text replacement) (Fs.lines (Fs.universal_newlines content)).

(** The content that these lines make. *)
Definition rewritten (text replacement content : string) : string :=
  Str.join "" (rewritten_lines text replacement content).

(** ** Sample worlds *)

(** A file of two lines, the first one ended by a carriage return. *)
Definition cr_content : string :=
  String "a" (String Fs.CR (String "b" EmptyString)).

Definition cr_world : world := World {["f.txt" := cr_content]} ∅ ∅ None.

(** A file of two lines, the first one ended by a line feed. *)
Definition lf_content : string :=
  String "a" (String Fs.LF (String "b" EmptyString)).

Definition lf_world : world := World {["f.txt" := lf_content]} ∅ ∅ None.

(** A file that is no UTF-8 text: the byte [0xFF] begins no character. *)
Definition latin_content : string :=
  String "a" (String (ascii_of_nat 255) (String Fs.LF EmptyString)).

Definition latin_world : world := World {["f.txt" := latin_content]} ∅ ∅ None.

(** A server with one resource, and a file system with the directory [/d]. *)
Definition web_world : world :=
  World ∅ {["/d"]} {["http://host/data.bin" := "0123456789"]} None.

(** ** Paths below a directory *)

(** The path of the directory reached from [dir] through the names [comps]. *)
Definition path_under (dir : string) (comps : list string) : string :=
  fold_left (λ path name, path +:+ String "/" name) comps dir.

(** The directories on the way from [dir] to [path_under dir comps], the
    latter included, [dir] not. *)
Fixpoint chain (dir : string) (comps : list string) : list string :=
  match comps with
  | [] => []
  | name :: rest =>
      (dir +:+ String "/" name) :: chain (dir +:+ String "/" name) rest
  end.

(** A name of a file or directory: not empty, without a separator, and
    neither of the names [.] and [..] that stand for a directory itself and
    for the one above it. *)
Definition is_name (name : string) : Prop :=
  name ≠ EmptyString ∧ Str.has_char "/" name = false ∧
  name ≠ "." ∧ name ≠ "..".

(** A workspace [/ws] in which the runtime [rt] has logged before. *)
Definition log_world : world :=
  World {["/ws/logs/rt/svc.log" := "old lines"]}
        ({["/ws"]} ∪ {["/ws/logs"]} ∪ {["/ws/logs/rt"]}) ∅ None.

(** * Properties *)

(** ** Strings *)

Section StrFacts.

Lemma app_cons (c : ascii) (s t : string) : String c s +:+ t = String c (s +:+ t).
Proof. reflexivity. Qed.

Lemma app_empty_l (s : string) : EmptyString +:+ s = s.
Proof. reflexivity. Qed.

Lemma app_empty_r (s : string) : s +:+ EmptyString = s.
Proof. induction s as [|c s IH]; [reflexivity|]. by rewrite app_cons, IH. Qed.

Lemma app_assoc (s t u : string) : (s +:+ t) +:+ u = s +:+ (t +:+ u).
Proof. induction s as [|c s IH]; [reflexivity|]. by rewrite !app_cons, IH. Qed.

Lemma length_app (s t : string) :
  String.length (s +:+ t) = (String.length s + String.length t)%nat.
Proof.
  induction s as [|c s IH]; [reflexivity|].
  rewrite app_cons. simpl. by rewrite IH.
Qed.

Lemma app_inj_length (a b a' b' : string) :
  a +:+ b = a' +:+ b' → String.length a = String.length a' → a = a' ∧ b = b'.
Proof.
  revert a'. induction a as [|c a IH]; intros [|c' a'] H Hlen; try done.
  rewrite !app_cons in H. injection H as -> H. simpl in Hlen.
  destruct (IH a' H) as [-> ->]; [lia|done].
Qed.

Lemma take_drop (n : nat) (s : string) : Str.take n s +:+ Str.drop n s = s.
Proof.
  revert s. induction n as [|n IH]; intros [|c s]; try reflexivity.
  simpl. by rewrite app_cons, IH.
Qed.

Lemma length_drop (n : nat) (s : string) :
  String.length (Str.drop n s) = (String.length s - n)%nat.
Proof.
  revert s. induction n as [|n IH]; intros [|c s]; simpl; auto with lia.
Qed.

Lemma length_take (n : nat) (s : string) :
  String.length (Str.take n s) = Nat.min n (String.length s).
Proof.
  revert s. induction n as [|n IH]; intros [|c s]; simpl; auto with lia.
Qed.

Lemma drop_0 (s : string) : Str.drop 0 s = s.
Proof. by destruct s. Qed.

Lemma drop_all (n : nat) (s : string) :
  (String.length s ≤ n)%nat → Str.drop n s = EmptyString.
Proof.
  revert s. induction n as [|n IH]; intros [|c s]; simpl; intros; auto with lia.
Qed.

Lemma length_lower (s : string) : String.length (Str.lower_ascii s) = String.length s.
Proof. induction s as [|c s IH]; simpl; congruence. Qed.

End StrFacts.

(** ** [to_camel_case] *)

Section CamelCase.

(** Case mapping never makes or removes a hyphen, and lower-casing undoes
    what upper-casing a lower-cased character did. *)
Lemma lower_char_hyphen (c : ascii) :
  Ascii.eqb (Str.lower_char c) "-" = Ascii.eqb c "-".
Proof. by destruct c as [[] [] [] [] [] [] [] []]. Qed.

Lemma upper_char_hyphen (c : ascii) :
  Ascii.eqb (Str.upper_char c) "-" = Ascii.eqb c "-".
Proof. by destruct c as [[] [] [] [] [] [] [] []]. Qed.

Lemma lower_char_idem (c : ascii) :
  Str.lower_char (Str.lower_char c) = Str.lower_char c.
Proof. by destruct c as [[] [] [] [] [] [] [] []]. Qed.

Lemma lower_upper_lower_char (c : ascii) :
  Str.lower_char (Str.upper_char (Str.lower_char c)) = Str.lower_char c.
Proof. by destruct c as [[] [] [] [] [] [] [] []]. Qed.

Lemma upper_lower_char (c : ascii) :
  Str.upper_char (Str.lower_char c) = Str.upper_char c.
Proof. by destruct c as [[] [] [] [] [] [] [] []]. Qed.

Lemma lower_idem (s : string) : Str.lower_ascii (Str.lower_ascii s) = Str.lower_ascii s.
Proof.
  induction s as [|c s IH]; [reflexivity|].
  simpl. by rewrite lower_char_idem, IH.
Qed.

Lemma lower_app (s t : string) :
  Str.lower_ascii (s +:+ t) = Str.lower_ascii s +:+ Str.lower_ascii t.
Proof.
  induction s as [|c s IH]; [reflexivity|].
  rewrite app_cons. simpl. by rewrite IH.
Qed.

Lemma has_char_app (c : ascii) (s t : string) :
  Str.has_char c (s +:+ t) = Str.has_char c s || Str.has_char c t.
Proof.
  induction s as [|d s IH]; [reflexivity|].
  rewrite app_cons. simpl. by rewrite IH, orb_assoc.
Qed.

Lemma has_hyphen_lower (s : string) :
  Str.has_char "-" (Str.lower_ascii s) = Str.has_char "-" s.
Proof.
  induction s as [|c s IH]; [reflexivity|].
  simpl. by rewrite lower_char_hyphen, IH.
Qed.

Lemma has_hyphen_capitalize (s : string) :
  Str.has_char "-" (Str.capitalize_ascii s) = Str.has_char "-" s.
Proof.
  destruct s as [|c s]; [reflexivity|].
  simpl. by rewrite upper_char_hyphen, has_hyphen_lower.
Qed.

(** A string without the separator is its own only piece. *)
Lemma split_no_sep (sep : ascii) (s : string) :
  Str.has_char sep s = false → Str.split sep s = [s].
Proof.
  induction s as [|c s IH]; [reflexivity|].
  simpl. destruct (Ascii.eqb c sep); [discriminate|].
  simpl. intros H. by rewrite (IH H).
Qed.

(** No piece of a split holds the separator. *)
Lemma split_pieces_no_sep (sep : ascii) (s : string) :
  Forall (λ piece, Str.has_char sep piece = false) (Str.split sep s).
Proof.
  induction s as [|c s IH]; simpl.
  - by constructor.
  - destruct (Ascii.eqb c sep) eqn:Hc.
    + by constructor.
    + destruct (Str.split sep s) as [|piece pieces].
      * constructor; [|constructor]. simpl. by rewrite Hc.
      * inversion IH as [|? ? Hp Hps]; subst.
        constructor; [|done]. simpl. by rewrite Hc, Hp.
Qed.

Lemma join_empty_cons (piece : string) (pieces : list string) :
  Str.join "" (piece :: pieces) = piece +:+ Str.join "" pieces.
Proof.
  unfold Str.join. destruct pieces as [|p ps]; simpl.
  - by rewrite app_empty_r.
  - reflexivity.
Qed.

Lemma join_no_hyphen (pieces : list string) :
  Forall (λ piece, Str.has_char "-" piece = false) pieces →
  Str.has_char "-" (Str.join "" pieces) = false.
Proof.
  induction 1 as [|piece pieces Hp _ IH]; [reflexivity|].
  by rewrite join_empty_cons, has_char_app, Hp, IH.
Qed.

(** The output of [to_camel_case] never holds a hyphen. *)
Lemma camel_case_no_hyphen (s : string) :
  Str.has_char "-" (camel_case_ascii s) = false.
Proof.
  unfold camel_case_ascii. apply join_no_hyphen.
  apply Forall_map.
  eapply Forall_impl; [apply split_pieces_no_sep|].
  intros piece Hp. simpl. by rewrite has_hyphen_capitalize.
Qed.

(** On a string without a hyphen, [to_camel_case] is [capitalize]. *)
Lemma camel_case_one_segment (s : string) :
  Str.has_char "-" s = false → camel_case_ascii s = Str.capitalize_ascii s.
Proof.
  intros H. unfold camel_case_ascii.
  rewrite split_no_sep by by rewrite has_hyphen_lower.
  change (map Str.capitalize_ascii [Str.lower_ascii s])
    with [Str.capitalize_ascii (Str.lower_ascii s)].
  rewrite join_empty_cons. change (Str.join "" []) with EmptyString.
  rewrite app_empty_r. destruct s as [|c s]; [reflexivity|].
  simpl. by rewrite lower_idem, upper_lower_char.
Qed.

(** ASCII text stays ASCII text under the case mappings, and when it is cut
    into pieces and put together. *)
Lemma is_ascii_app (s t : string) :
  Str.is_ascii (s +:+ t) = Str.is_ascii s && Str.is_ascii t.
Proof.
  induction s as [|c s IH]; [reflexivity|].
  rewrite app_cons. simpl. by rewrite IH, andb_assoc.
Qed.

Lemma is_ascii_lower_char (c : ascii) :
  Str.is_ascii_char (Str.lower_char c) = Str.is_ascii_char c.
Proof. by destruct c as [[] [] [] [] [] [] [] []]. Qed.

Lemma is_ascii_upper_char (c : ascii) :
  Str.is_ascii_char (Str.upper_char c) = Str.is_ascii_char c.
Proof. by destruct c as [[] [] [] [] [] [] [] []]. Qed.

Lemma is_ascii_lower (s : string) :
  Str.is_ascii (Str.lower_ascii s) = Str.is_ascii s.
Proof.
  induction s as [|c s IH]; [reflexivity|].
  simpl. by rewrite is_ascii_lower_char, IH.
Qed.

Lemma is_ascii_capitalize (s : string) :
  Str.is_ascii (Str.capitalize_ascii s) = Str.is_ascii s.
Proof.
  destruct s as [|c s]; [reflexivity|].
  simpl. by rewrite is_ascii_upper_char, is_ascii_lower.
Qed.

Lemma is_ascii_split (sep : ascii) (s : string) :
  Str.is_ascii s = true →
  Forall (λ piece, Str.is_ascii piece = true) (Str.split sep s).
Proof.
  induction s as [|c s IH]; simpl.
  - by constructor.
  - intros [Hc Hs]%andb_true_iff. specialize (IH Hs).
    destruct (Ascii.eqb c sep).
    + by constructor.
    + destruct (Str.split sep s) as [|piece pieces].
      * constructor; [|constructor]. simpl. by rewrite Hc.
      * inversion IH as [|? ? Hp Hps]; subst.
        constructor; [|done]. simpl. by rewrite Hc, Hp.
Qed.

Lemma is_ascii_join (pieces : list string) :
  Forall (λ piece, Str.is_ascii piece = true) pieces →
  Str.is_ascii (Str.join "" pieces) = true.
Proof.
  induction 1 as [|piece pieces Hp _ IH]; [reflexivity|].
  by rewrite join_empty_cons, is_ascii_app, Hp, IH.
Qed.

Lemma is_ascii_camel_case (s : string) :
  Str.is_ascii s = true → Str.is_ascii (camel_case_ascii s) = true.
Proof.
  intros H. unfold camel_case_ascii. apply is_ascii_join, Forall_map.
  eapply Forall_impl; [apply is_ascii_split; by rewrite is_ascii_lower|].
  intros piece Hp. simpl. by rewrite is_ascii_capitalize.
Qed.

(** On ASCII text the case mappings have a value. *)
Lemma lower_ascii_value (s : string) :
  Str.is_ascii s = true → Str.lower s = Some (Str.lower_ascii s).
Proof. intros H. unfold Str.lower. by rewrite H. Qed.

Lemma capitalize_ascii_value (s : string) :
  Str.is_ascii s = true → Str.capitalize s = Some (Str.capitalize_ascii s).
Proof. intros H. unfold Str.capitalize. by rewrite H. Qed.

Lemma capitalize_pieces (pieces : list string) :
  Forall (λ piece, Str.is_ascii piece = true) pieces →
  mapM Str.capitalize pieces = Some (map Str.capitalize_ascii pieces).
Proof.
  induction 1 as [|piece pieces Hp _ IH]; [reflexivity|].
  cbn [mapM map]. by rewrite (capitalize_ascii_value _ Hp), IH.
Qed.

(** [to_camel_case] on ASCII text. *)
Lemma to_camel_case_ascii (s : string) :
  Str.is_ascii s = true → to_camel_case s = Some (camel_case_ascii s).
Proof.
  intros H. unfold to_camel_case. rewrite (lower_ascii_value _ H). simpl.
  rewrite capitalize_pieces by (apply is_ascii_split; by rewrite is_ascii_lower).
  reflexivity.
Qed.

(** It has no value on any other text. *)
Lemma to_camel_case_not_ascii (s : string) :
  Str.is_ascii s = false → to_camel_case s = None.
Proof. intros H. unfold to_camel_case, Str.lower. by rewrite H. Qed.

End CamelCase.

Section CamelCaseTwice.

(** Applied to its own output, [to_camel_case] sees one segment: it
    capitalizes it, which lower-cases every character but the first. *)
Lemma camel_case_twice (s : string) :
  camel_case_ascii (camel_case_ascii s) = Str.capitalize_ascii (camel_case_ascii s).
Proof. apply camel_case_one_segment, camel_case_no_hyphen. Qed.

(** Lower-casing changes nothing exactly where there is no upper-case
    letter. *)
Lemma lower_char_fixed (c : ascii) :
  Str.lower_char c = c ↔ Str.is_upper c = false.
Proof. destruct c as [[] [] [] [] [] [] [] []]; by vm_compute. Qed.

Lemma lower_fixed (s : string) :
  Str.lower_ascii s = s ↔ Str.has_upper s = false.
Proof.
  induction s as [|c s IH]; [done|]. simpl.
  rewrite orb_false_iff, <- IH, <- lower_char_fixed.
  split; [by intros [= Hc Hs]|]. intros [Hc Hs]. by rewrite Hc, Hs.
Qed.

(** The first character of a capitalized piece is one that upper-casing
    gives, and so is the first character of the output of [to_camel_case]. *)
Lemma upper_char_idem (c : ascii) :
  Str.upper_char (Str.upper_char c) = Str.upper_char c.
Proof. by destruct c as [[] [] [] [] [] [] [] []]. Qed.

Lemma upper_first_capitalize (s : string) : upper_first (Str.capitalize_ascii s).
Proof. destruct s as [|c s]; [done|]. simpl. apply upper_char_idem. Qed.

Lemma upper_first_join (pieces : list string) :
  Forall upper_first pieces → upper_first (Str.join "" pieces).
Proof.
  induction 1 as [|piece pieces Hp _ IH]; [done|].
  rewrite join_empty_cons. by destruct piece.
Qed.

Lemma upper_first_camel_case (s : string) : upper_first (camel_case_ascii s).
Proof.
  unfold camel_case_ascii. apply upper_first_join, Forall_map, Forall_forall.
  intros piece _. apply upper_first_capitalize.
Qed.

(** [s[1:]] *)
Lemma slice_from_tail (c : ascii) (s : string) :
  Str.slice_from (String c s) 1 = s.
Proof.
  unfold Str.slice_from, Str.slice_index, Str.len.
  change (1 <? 0) with false. cbv iota.
  by replace (Z.to_nat (Z.min 1 (Z.of_nat (String.length (String c s)))))
    with 1%nat by (simpl; lia).
Qed.

(** Capitalizing a text that begins as a capitalized one does leaves it as
    it is exactly when no upper-case letter comes after its first
    character. *)
Lemma capitalize_fixed (s : string) :
  upper_first s →
  Str.capitalize_ascii s = s ↔ Str.has_upper (Str.slice_from s 1) = false.
Proof.
  destruct s as [|c s]; [done|]. intros Hc.
  rewrite slice_from_tail, <- lower_fixed. simpl in *. rewrite Hc.
  split; [by intros [= ->]|by intros ->].
Qed.

(** C2, as stated, fails: the output for ["foo-bar"] holds no hyphen, and a
    second application lower-cases the [B] of the second segment. *)
Lemma C2_counterexample :
  to_camel_case "foo-bar" = Some "FooBar" ∧
  Str.has_char "-" "FooBar" = false ∧
  to_camel_case "FooBar" = Some "Foobar" ∧
  to_camel_case "FooBar" ≠ to_camel_case "foo-bar".
Proof. repeat split; try reflexivity. vm_compute. discriminate. Qed.

(** C2 (amended): for every ASCII string [s], [to_camel_case] applied to
    [to_camel_case s] gives [to_camel_case s] again exactly when no
    upper-case letter comes after the first character of [to_camel_case s]. *)
Theorem C2_to_camel_case_idempotent (s : string) :
  Str.is_ascii s = true →
  ∃ once : string,
    to_camel_case s = Some once ∧
    (to_camel_case once = Some once ↔
     Str.has_upper (Str.slice_from once 1) = false).
Proof.
  intros H. exists (camel_case_ascii s).
  split; [by apply to_camel_case_ascii|].
  rewrite to_camel_case_ascii by by apply is_ascii_camel_case.
  rewrite camel_case_twice.
  rewrite <- (capitalize_fixed _ (upper_first_camel_case s)).
  split; [by intros [= ->]|by intros ->].
Qed.

Lemma C2_witness :
  Str.is_ascii "foo-1bar" = true ∧
  ∃ once : string,
    to_camel_case "foo-1bar" = Some once ∧
    (to_camel_case once = Some once ↔
     Str.has_upper (Str.slice_from once 1) = false).
Proof.
  split; [reflexivity|].
  apply (C2_to_camel_case_idempotent "foo-1bar"). reflexivity.
Defined.

(** Both sides of the condition, on two inputs with a hyphen. *)
Example to_camel_case_ex_idempotent :
  to_camel_case "foo-1bar" = Some "Foo1bar" ∧
  to_camel_case "Foo1bar" = Some "Foo1bar" ∧
  Str.has_upper (Str.slice_from "Foo1bar" 1) = false.
Proof. by vm_compute. Qed.

Example to_camel_case_ex_not_idempotent :
  to_camel_case "foo-bar" = Some "FooBar" ∧
  to_camel_case "FooBar" = Some "Foobar" ∧
  Str.has_upper (Str.slice_from "FooBar" 1) = true.
Proof. by vm_compute. Qed.

End CamelCaseTwice.

(** ** [create_truncated_string] *)

Section Truncate.

Lemma len_app (s t : string) : Str.len (s +:+ t) = Str.len s + Str.len t.
Proof. unfold Str.len. rewrite length_app. lia. Qed.

Lemma len_nonneg (s : string) : 0 ≤ Str.len s.
Proof. unfold Str.len. lia. Qed.

(** A string that is shorter than [length] is returned as it is. *)
Lemma truncate_short (s : string) (length : Z) :
  Str.len s < length → create_truncated_string s length = s.
Proof.
  intros H. unfold create_truncated_string.
  by destruct (Z.ltb_spec (Str.len s) length); [|lia].
Qed.

(** Otherwise the result is the marker and the slice, and for a [length]
    above 3 the slice starts [length - 3] characters before the end. *)
Lemma truncate_long (s : string) (length : Z) :
  length ≤ Str.len s →
  create_truncated_string s length =
    "..." +:+ Str.drop (Str.slice_index (Str.len s) (- length + 3)) s.
Proof.
  intros H. unfold create_truncated_string, Str.slice_from.
  by destruct (Z.ltb_spec (Str.len s) length); [lia|].
Qed.

Lemma slice_index_tail (n length : Z) :
  3 < length → length ≤ n →
  Str.slice_index n (- length + 3) = Z.to_nat (n - (length - 3)).
Proof.
  intros H3 Hn. unfold Str.slice_index.
  destruct (Z.ltb_spec (- length + 3) 0); [|lia]. f_equal. lia.
Qed.

Lemma slice_index_front (n length : Z) :
  length ≤ 3 → length ≤ n →
  Str.slice_index n (- length + 3) = Z.to_nat (Z.min (3 - length) n).
Proof.
  intros H3 Hn. unfold Str.slice_index.
  destruct (Z.ltb_spec (- length + 3) 0); [lia|]. f_equal. lia.
Qed.

(** For a [length] above 3 and an input of [length] characters or more, the
    result is the marker and the last [length - 3] characters. *)
Lemma truncate_tail (s : string) (length : Z) :
  3 < length → length ≤ Str.len s →
  ∃ front back : string,
    s = front +:+ back ∧
    Str.len back = length - 3 ∧
    create_truncated_string s length = "..." +:+ back ∧
    Str.len (create_truncated_string s length) = length.
Proof.
  intros H3 Hlen.
  set (k := Z.to_nat (Str.len s - (length - 3))).
  assert (Hback : Str.len (Str.drop k s) = length - 3).
  { unfold Str.len in *. rewrite length_drop. lia. }
  exists (Str.take k s), (Str.drop k s).
  rewrite truncate_long, slice_index_tail by lia. fold k.
  rewrite len_app, Hback, take_drop.
  repeat split; try done. change (Str.len "...") with 3. lia.
Qed.

(** C3, as stated, fails for a [length] below 4: with [length = 2] the
    result is the marker and all but the first character of the input. *)
Lemma C3_counterexample :
  2 < Str.len "abcdef" ∧
  create_truncated_string "abcdef" 2 = "...bcdef" ∧
  Str.len (create_truncated_string "abcdef" 2) ≠ 2.
Proof. repeat split; try reflexivity. vm_compute. discriminate. Qed.

(** C3 (amended): a string shorter than [length] is returned unchanged; for
    [length > 3] and a string longer than [length], the result has exactly
    [length] characters: the marker ["..."] and then the last [length - 3]
    characters of the input, so that it ends as the input does. *)
Theorem C3_truncate (s : string) (length : Z) :
  (Str.len s < length → create_truncated_string s length = s) ∧
  (3 < length → length < Str.len s →
   ∃ front back : string,
     s = front +:+ back ∧
     Str.len back = length - 3 ∧
     create_truncated_string s length = "..." +:+ back ∧
     Str.len (create_truncated_string s length) = length).
Proof.
  split; [apply truncate_short|].
  intros H3 Hlen. apply truncate_tail; lia.
Qed.

Lemma C3_witness :
  (3 < 6 ∧ 6 < Str.len "abcdefghij") ∧
  ∃ front back : string,
    "abcdefghij" = front +:+ back ∧
    Str.len back = 6 - 3 ∧
    create_truncated_string "abcdefghij" 6 = "..." +:+ back ∧
    Str.len (create_truncated_string "abcdefghij" 6) = 6.
Proof.
  split; [by vm_compute|].
  apply (proj2 (C3_truncate "abcdefghij" 6)); by vm_compute.
Defined.

(** C4: with [length = 3] and an input of three characters or more, the
    slice [input[-length+3:]] is [input[0:]], so the result is the marker
    followed by the whole input, [len(input) + 3] characters; and for every
    [length ≤ 3] and every input with [length ≤ len(input)], the result is
    longer than [length]. *)
Theorem C4_truncate_length_at_most_3 (s : string) (length : Z) :
  (3 ≤ Str.len s →
   create_truncated_string s 3 = "..." +:+ s ∧
   Str.len (create_truncated_string s 3) = Str.len s + 3) ∧
  (length ≤ 3 → length ≤ Str.len s →
   length < Str.len (create_truncated_string s length)).
Proof.
  split.
  - intros Hs. rewrite truncate_long by done.
    rewrite slice_index_front by lia.
    replace (Z.to_nat (Z.min (3 - 3) (Str.len s))) with 0%nat by lia.
    rewrite drop_0, len_app. split; [done|].
    change (Str.len "...") with 3. lia.
  - intros H3 Hs. rewrite truncate_long by done.
    rewrite len_app. change (Str.len "...") with 3.
    pose proof (len_nonneg (Str.drop (Str.slice_index (Str.len s) (- length + 3)) s)).
    destruct (Z.eq_dec length 3) as [->|]; [|lia].
    rewrite slice_index_front by lia.
    replace (Z.to_nat (Z.min (3 - 3) (Str.len s))) with 0%nat by lia.
    rewrite drop_0. lia.
Qed.

Lemma C4_witness :
  (3 ≤ Str.len "abcdef" ∧ 2 ≤ 3 ∧ 2 ≤ Str.len "abcdef") ∧
  create_truncated_string "abcdef" 3 = "...abcdef" ∧
  2 < Str.len (create_truncated_string "abcdef" 2).
Proof.
  split; [by vm_compute|]. split.
  - apply (proj1 (C4_truncate_length_at_most_3 "abcdef" 3)). by vm_compute.
  - apply (proj2 (C4_truncate_length_at_most_3 "abcdef" 2)); by vm_compute.
Defined.

End Truncate.

(** ** [get_valid_arch] *)

Section ValidArch.

Lemma prefix_spec (p s : string) :
  String.prefix p s = true ↔ ∃ after : string, s = p +:+ after.
Proof.
  revert s. induction p as [|a p IH]; intros s.
  - split; [intros _; by exists s|by destruct s].
  - destruct s as [|b s]; simpl.
    + split; [done|]. intros [after H]. by rewrite app_cons in H.
    + destruct (ascii_dec a b) as [->|Hab].
      * rewrite IH. split; intros [after H]; exists after.
        -- by rewrite app_cons, H.
        -- rewrite app_cons in H. congruence.
      * split; [done|]. intros [after H]. rewrite app_cons in H. congruence.
Qed.

Lemma contains_unfold (needle hay : string) :
  Str.contains needle hay =
    String.prefix needle hay ||
    match hay with
    | EmptyString => false
    | String _ r => Str.contains needle r
    end.
Proof. by destruct hay. Qed.

(** The test [needle in hay] of the model decides [occurs_in]. *)
Lemma contains_spec (needle hay : string) :
  Str.contains needle hay = true ↔ occurs_in needle hay.
Proof.
  split.
  - induction hay as [|c hay IH]; rewrite contains_unfold;
      intros [H|H]%orb_true_iff; try done.
    + apply prefix_spec in H as [after H]. by exists EmptyString, after.
    + apply prefix_spec in H as [after H]. by exists EmptyString, after.
    + destruct (IH H) as (before & after & ->).
      by exists (String c before), after.
  - intros (before & after & ->).
    induction before as [|c before IH]; rewrite contains_unfold.
    + rewrite app_empty_l.
      assert (String.prefix needle (needle +:+ after) = true) as ->
        by (apply prefix_spec; by exists after).
      done.
    + rewrite app_cons, IH. apply orb_true_r.
Qed.

Lemma contains_false (needle hay : string) :
  Str.contains needle hay = false ↔ ¬ occurs_in needle hay.
Proof. rewrite <- contains_spec. by destruct (Str.contains needle hay). Qed.

(** C6: a string that holds ["x86_64"] or ["amd64"] is mapped to
    ["x86_64"]; otherwise one that holds ["aarch64"] or ["arm64"] is mapped
    to ["aarch64"]; every other string is refused with the [ValueError]
    ["Unknown architecture: ..."].  So ["amd64"] gives ["x86_64"],
    ["arm64v8"] gives ["aarch64"], and ["mips"] is refused. *)
Theorem C6_get_valid_arch (arch : string) :
  (occurs_in "x86_64" arch ∨ occurs_in "amd64" arch →
   get_valid_arch arch = Return "x86_64") ∧
  (¬ occurs_in "x86_64" arch → ¬ occurs_in "amd64" arch →
   occurs_in "aarch64" arch ∨ occurs_in "arm64" arch →
   get_valid_arch arch = Return "aarch64") ∧
  (¬ occurs_in "x86_64" arch → ¬ occurs_in "amd64" arch →
   ¬ occurs_in "aarch64" arch → ¬ occurs_in "arm64" arch →
   get_valid_arch arch = Raise (ValueError ("Unknown architecture: " +:+ arch))) ∧
  get_valid_arch "amd64" = Return "x86_64" ∧
  get_valid_arch "arm64v8" = Return "aarch64" ∧
  get_valid_arch "mips" = Raise (ValueError "Unknown architecture: mips").
Proof.
  unfold get_valid_arch. repeat split.
  - intros [H|H]; apply contains_spec in H; rewrite H; by rewrite ?orb_true_r.
  - intros H1%contains_false H2%contains_false H.
    rewrite H1, H2. simpl.
    destruct H as [H|H]; apply contains_spec in H; rewrite H;
      by rewrite ?orb_true_r.
  - intros H1%contains_false H2%contains_false
           H3%contains_false H4%contains_false.
    by rewrite H1, H2, H3, H4.
Qed.

Lemma C6_witness :
  (occurs_in "amd64" "linux/amd64" ∧ get_valid_arch "linux/amd64" = Return "x86_64") ∧
  (¬ occurs_in "x86_64" "arm64v8" ∧ ¬ occurs_in "amd64" "arm64v8" ∧
   occurs_in "arm64" "arm64v8" ∧ get_valid_arch "arm64v8" = Return "aarch64").
Proof.
  split.
  - assert (occurs_in "amd64" "linux/amd64") as H by by exists "linux/", EmptyString.
    split; [exact H|].
    apply (proj1 (C6_get_valid_arch "linux/amd64")). by right.
  - assert (occurs_in "arm64" "arm64v8") as H by by exists EmptyString, "v8".
    assert (¬ occurs_in "x86_64" "arm64v8") as H1 by by apply contains_false.
    assert (¬ occurs_in "amd64" "arm64v8") as H2 by by apply contains_false.
    split; [exact H1|]. split; [exact H2|]. split; [exact H|].
    apply (proj1 (proj2 (C6_get_valid_arch "arm64v8")));
      [exact H1|exact H2|by right].
Defined.

End ValidArch.

(** ** [require_env] and its wrappers *)

Section RequireEnv.

Lemma require_env_set (env : environ) (name v : string) :
  env !! name = Some v → v ≠ EmptyString → require_env env name = Return v.
Proof.
  intros H Hv. unfold require_env, Os.getenv. rewrite H.
  by destruct v.
Qed.

Lemma require_env_unset (env : environ) (name : string) :
  env !! name = None ∨ env !! name = Some EmptyString →
  require_env env name =
    Raise (ValueError ("Environment variable " +:+ Str.repr name +:+ " not set!")).
Proof.
  intros [H|H]; unfold require_env, Os.getenv; by rewrite H.
Qed.

Lemma require_env_contract (name : string) :
  env_contract (λ env, require_env env name) name.
Proof.
  intros env. split; [apply require_env_set|]. split.
  - intros H. eexists. by apply require_env_unset.
  - split.
    + intros [e He]. destruct (env !! name) as [v|] eqn:Hv; [|by left].
      destruct (decide (v = EmptyString)) as [->|Hne]; [by right|].
      by rewrite (require_env_set env name v Hv Hne) in He.
    + intros H. eexists. by apply require_env_unset.
Qed.

(** C7: [require_env name] fails, with a [ValueError], exactly when the
    variable is unset or set to the empty string, and returns the value of
    the variable otherwise; [get_workspace_dir], [get_package_path],
    [get_project_cache_dir] and [get_programming_language] keep that
    contract for the variable each of them reads. *)
Theorem C7_require_env :
  (∀ name, env_contract (λ env, require_env env name) name) ∧
  env_contract get_workspace_dir "VELOCITAS_WORKSPACE_DIR" ∧
  env_contract get_package_path "VELOCITAS_PACKAGE_DIR" ∧
  env_contract get_project_cache_dir "VELOCITAS_CACHE_DIR" ∧
  env_contract get_programming_language "language".
Proof. repeat split; apply require_env_contract. Qed.

Lemma C7_witness :
  require_env (<["language" := "python"]> ∅) "language" = Return "python" ∧
  (∃ msg, require_env (<["language" := EmptyString]> ∅) "language"
          = Raise (ValueError msg)) ∧
  (∃ msg, get_workspace_dir ∅ = Raise (ValueError msg)).
Proof.
  split; [|split].
  - apply (proj1 C7_require_env "language" (<["language" := "python"]> ∅)); done.
  - apply (proj1 C7_require_env "language" (<["language" := EmptyString]> ∅)).
    by right.
  - apply (proj1 (proj2 C7_require_env) ∅). by left.
Defined.

Example require_env_message :
  require_env ∅ "HOME" = Raise (ValueError "Environment variable 'HOME' not set!").
Proof. reflexivity. Qed.

End RequireEnv.

(** ** [capture_textfile_area] *)

Section Capture.

Variables (start_line end_line : string) (map_fn : option (string → string)).

Local Abbreviation step := (capture_step start_line end_line map_fn).
Local Abbreviation run := (capture_loop start_line end_line map_fn).

Lemma run_snoc (before : list string) (line : string) :
  run (before ++ [line]) = step (run before) line.
Proof. unfold capture_loop. by rewrite fold_left_app. Qed.

Lemma capture_run (file : list string) :
  capture_textfile_area file start_line end_line map_fn = area_content (run file).
Proof. reflexivity. Qed.

(** A list that ends with [line] and is cut at a marker: the marker is
    [line] itself, or [line] closes what comes after the marker. *)
Lemma snoc_cut (before pre between : list string) (line marker : string) :
  before ++ [line] = pre ++ marker :: between →
  (pre = before ∧ marker = line ∧ between = []) ∨
  (∃ between', between = between' ++ [line] ∧ before = pre ++ marker :: between').
Proof.
  destruct between as [|x between' _] using rev_ind; intros H.
  - left. change (pre ++ [marker]) with (pre ++ [marker]) in H.
    apply app_inj_tail in H as [-> ->]. done.
  - right. exists between'.
    change (pre ++ marker :: between' ++ [x])
      with (pre ++ (marker :: between') ++ [x]) in H.
    rewrite (assoc_L (++)) in H. apply app_inj_tail in H as [-> ->]. done.
Qed.

(** The flag of the loop says whether a region is open. *)
Lemma is_capturing_spec (before : list string) :
  is_capturing (run before) = true ↔ region_open start_line end_line before.
Proof.
  induction before as [|line before IH] using rev_ind.
  - split; [done|]. intros (pre & marker & between & H & _).
    by destruct pre.
  - rewrite run_snoc. unfold capture_step.
    destruct (String.eqb_spec (Str.strip line) start_line) as [Hs|Hs]; simpl.
    + split; [|done]. intros _. exists before, line, []. by repeat constructor.
    + destruct (String.eqb_spec (Str.strip line) end_line) as [He|He]; simpl.
      * split; [done|]. intros (pre & marker & between & H & Hm & Hb).
        apply snoc_cut in H as [(_ & -> & _)|(between' & -> & _)]; [done|].
        apply Forall_app in Hb as [_ Hb]. by inversion Hb.
      * assert (is_capturing
                  (if is_capturing (run before)
                   then CaptureState
                          (area_content (run before) ++
                             [match map_fn with
                              | Some f => f (Str.rstrip line)
                              | None => Str.rstrip line
                              end])
                          (is_capturing (run before))
                   else run before) = is_capturing (run before)) as ->
          by by destruct (is_capturing (run before)) eqn:Hc.
        rewrite IH. split.
        -- intros (pre & marker & between & -> & Hm & Hb).
           exists pre, marker, (between ++ [line]). split; [|split; [done|]].
           ++ by rewrite <- (assoc_L (++)).
           ++ apply Forall_app. by repeat constructor.
        -- intros (pre & marker & between & H & Hm & Hb).
           apply snoc_cut in H as [(_ & -> & _)|(between' & -> & ->)]; [done|].
           exists pre, marker, between'. apply Forall_app in Hb as [Hb _]. done.
Qed.

Lemma capture_snoc_captured (before : list string) (line : string) :
  captured start_line end_line before line →
  capture_textfile_area (before ++ [line]) start_line end_line map_fn =
    capture_textfile_area before start_line end_line map_fn ++ [emitted map_fn line].
Proof.
  intros (Hopen & Hs & He). apply is_capturing_spec in Hopen.
  rewrite !capture_run, run_snoc. unfold capture_step.
  destruct (String.eqb_spec (Str.strip line) start_line); [done|].
  destruct (String.eqb_spec (Str.strip line) end_line); [done|].
  rewrite Hopen. simpl. unfold emitted. by destruct map_fn.
Qed.

Lemma capture_snoc_skipped (before : list string) (line : string) :
  ¬ captured start_line end_line before line →
  capture_textfile_area (before ++ [line]) start_line end_line map_fn =
    capture_textfile_area before start_line end_line map_fn.
Proof.
  intros Hnot.
  rewrite !capture_run, run_snoc. unfold capture_step.
  destruct (String.eqb_spec (Str.strip line) start_line); [done|].
  destruct (String.eqb_spec (Str.strip line) end_line); [done|].
  destruct (is_capturing (run before)) eqn:Hc; [|done].
  destruct Hnot. split; [|done]. by apply is_capturing_spec.
Qed.

(** After a start marker that no end marker follows, every line that is no
    start marker is in the result, to the end of the input. *)
Lemma capture_open_region (pre : list string) (marker : string) (rest : list string) :
  Str.strip marker = start_line →
  Forall (λ line, Str.strip line ≠ end_line) rest →
  capture_textfile_area (pre ++ marker :: rest) start_line end_line map_fn =
    capture_textfile_area pre start_line end_line map_fn ++
    map (emitted map_fn) (filter (λ line, Str.strip line ≠ start_line) rest).
Proof.
  intros Hm. induction rest as [|line rest IH] using rev_ind; intros Hrest.
  - simpl. rewrite app_nil_r. apply capture_snoc_skipped.
    intros (_ & Hs & _). done.
  - apply Forall_app in Hrest as [Hrest Hline]. inversion_clear Hline as [|? ? He _].
    change (pre ++ marker :: rest ++ [line])
      with (pre ++ (marker :: rest) ++ [line]).
    rewrite (assoc_L (++)), filter_app, map_app, (assoc_L (++)), <- (IH Hrest).
    destruct (decide (Str.strip line = start_line)) as [Hs|Hs].
    + rewrite filter_cons_False by (intros ?; done). simpl. rewrite app_nil_r.
      apply capture_snoc_skipped. intros (_ & ? & _). done.
    + rewrite filter_cons_True by done. simpl.
      apply capture_snoc_captured. split; [|done].
      by exists pre, marker, rest.
Qed.

End Capture.

(** When one text is both markers, a marker line is taken for a start
    marker, the test the loop makes first: from the first marker line on the
    flag is set, and every line that is no marker line is gathered. *)
Lemma capture_loop_same_marker (m : string) (map_fn : option (string → string))
    (pre : list string) (marker : string) (rest : list string) :
  Str.strip marker = m →
  capture_loop m m map_fn (pre ++ marker :: rest) =
    CaptureState
      (area_content (capture_loop m m map_fn pre) ++
       map (emitted map_fn) (filter (λ line, Str.strip line ≠ m) rest))
      true.
Proof.
  intros Hm. induction rest as [|line rest IH] using rev_ind.
  - rewrite run_snoc. unfold capture_step. rewrite Hm, String.eqb_refl.
    simpl. by rewrite app_nil_r.
  - change (pre ++ marker :: rest ++ [line])
      with (pre ++ (marker :: rest) ++ [line]).
    rewrite (assoc_L (++)), run_snoc, IH, filter_app, map_app.
    unfold capture_step. simpl.
    destruct (String.eqb_spec (Str.strip line) m) as [Hl|Hl].
    + rewrite filter_cons_False by (intros ?; done). simpl.
      by rewrite app_nil_r.
    + rewrite filter_cons_True by done. simpl.
      rewrite (assoc_L (++)). unfold emitted. by destruct map_fn.
Qed.

(** C5, where the code departs from it: with one and the same text for the
    start and the end marker, no line ends the capture.  After the first
    marker line every line that is no marker line is in the result, also
    the lines after the second marker line, where the claim, and the
    documentation of the function, have the capture end.  For the lines
    [M a M b] and the marker [M] the result is [a b]. *)
Theorem C5_capture_same_marker (m : string) (map_fn : option (string → string))
    (pre : list string) (marker : string) (rest : list string) :
  Str.strip marker = m →
  capture_textfile_area (pre ++ marker :: rest) m m map_fn =
    capture_textfile_area pre m m map_fn ++
    map (emitted map_fn) (filter (λ line, Str.strip line ≠ m) rest).
Proof.
  intros Hm. unfold capture_textfile_area.
  by rewrite capture_loop_same_marker.
Qed.

Lemma C5_witness :
  Str.strip "M" = "M" ∧
  capture_textfile_area ["M"; "a"; "M"; "b"] "M" "M" None = ["a"; "b"].
Proof.
  split; [reflexivity|].
  etransitivity;
    [apply (C5_capture_same_marker "M" None [] "M" ["a"; "M"; "b"]); reflexivity|].
  by vm_compute.
Defined.

(** The loop, line by line: a line is added to the result exactly when it
    comes after a start marker that no end marker has followed yet and is
    itself no marker (a marker being a line whose stripped text is
    [start_line], or else [end_line]); what is added is the line without its
    trailing white space, passed through [map_fn] when one is given; and a
    region that no end marker closes goes on to the end of the input.  For
    the lines [a START b c END d] the result is [b c]. *)
Theorem capture_textfile_area_by_line
    (start_line end_line : string) (map_fn : option (string → string)) :
  capture_textfile_area [] start_line end_line map_fn = [] ∧
  (∀ before line,
     captured start_line end_line before line →
     capture_textfile_area (before ++ [line]) start_line end_line map_fn =
       capture_textfile_area before start_line end_line map_fn
       ++ [emitted map_fn line]) ∧
  (∀ before line,
     ¬ captured start_line end_line before line →
     capture_textfile_area (before ++ [line]) start_line end_line map_fn =
       capture_textfile_area before start_line end_line map_fn) ∧
  (∀ pre marker rest,
     Str.strip marker = start_line →
     Forall (λ line, Str.strip line ≠ end_line) rest →
     capture_textfile_area (pre ++ marker :: rest) start_line end_line map_fn =
       capture_textfile_area pre start_line end_line map_fn ++
       map (emitted map_fn) (filter (λ line, Str.strip line ≠ start_line) rest)) ∧
  capture_textfile_area ["a"; "START"; "b"; "c"; "END"; "d"] "START" "END" None
    = ["b"; "c"].
Proof.
  split; [done|]. split; [apply capture_snoc_captured|].
  split; [apply capture_snoc_skipped|]. split; [apply capture_open_region|].
  reflexivity.
Qed.

Lemma capture_textfile_area_by_line_witness :
  captured "START" "END" ["a"; "START"] "B  " ∧
  capture_textfile_area (["a"; "START"] ++ ["B  "]) "START" "END"
                        (Some Str.lower_ascii)
    = capture_textfile_area ["a"; "START"] "START" "END" (Some Str.lower_ascii)
      ++ ["b"].
Proof.
  assert (captured "START" "END" ["a"; "START"] "B  ") as H.
  { split; [|by vm_compute]. exists ["a"], "START", []. by repeat constructor. }
  split; [exact H|].
  apply (proj1 (proj2 (capture_textfile_area_by_line "START" "END"
                         (Some Str.lower_ascii)))
           ["a"; "START"] "B  " H).
Defined.

(** ** [get_app_manifest] *)

Section AppManifest.

Variables (env : environ) (text : string).
Hypothesis env_text : env !! "VELOCITAS_APP_MANIFEST" = Some text.
Hypothesis text_not_empty : text ≠ EmptyString.

Lemma get_app_manifest_decoded :
  get_app_manifest env =
    (manifest_data ← Json.loads text;
     if Json.is_dict manifest_data then Return manifest_data
     else
       match manifest_data with
       | Json.VList items =>
           first ← list_getitem items 0;
           if Json.is_dict first then Return first
           else Raise (TypeError "Manifest must be a dict or array!")
       | _ => Raise (TypeError "Manifest must be a dict or array!")
       end).
Proof.
  unfold get_app_manifest.
  by rewrite (require_env_set env _ text env_text text_not_empty).
Qed.

(** A text that is no JSON: the error of the decoder comes out. *)
Lemma get_app_manifest_invalid (e : exn) :
  Json.loads text = Raise e → get_app_manifest env = Raise e.
Proof. intros H. by rewrite get_app_manifest_decoded, H. Qed.

(** An object is returned as it is. *)
Lemma get_app_manifest_object (pairs : list (string * Json.value)) :
  Json.loads text = Return (Json.VDict pairs) →
  get_app_manifest env = Return (Json.VDict pairs).
Proof. intros H. by rewrite get_app_manifest_decoded, H. Qed.

(** Of an array that starts with an object, that object is returned. *)
Lemma get_app_manifest_array (pairs : list (string * Json.value))
    (rest : list Json.value) :
  Json.loads text = Return (Json.VList (Json.VDict pairs :: rest)) →
  get_app_manifest env = Return (Json.VDict pairs).
Proof. intros H. by rewrite get_app_manifest_decoded, H. Qed.

(** An array that starts with something else, and a value that is neither an
    object nor an array, are refused with a [TypeError]. *)
Lemma get_app_manifest_other (v : Json.value) :
  Json.loads text = Return v →
  Json.is_dict v = false →
  (∀ items, v = Json.VList items →
     ∃ first rest, items = first :: rest ∧ Json.is_dict first = false) →
  get_app_manifest env = Raise (TypeError "Manifest must be a dict or array!").
Proof.
  intros H Hd Hitems. rewrite get_app_manifest_decoded, H. simpl. rewrite Hd.
  destruct v; try done.
  destruct (Hitems _ eq_refl) as (first & rest & -> & Hf).
  simpl. unfold list_getitem. simpl. by rewrite Hf.
Qed.

(** The empty array: the look at its first element fails. *)
Lemma get_app_manifest_empty_array :
  Json.loads text = Return (Json.VList []) →
  get_app_manifest env = Raise (IndexError "list index out of range").
Proof. intros H. by rewrite get_app_manifest_decoded, H. Qed.

End AppManifest.

(** C1, at the input that breaks it: with the variable set to the empty
    array, [get_app_manifest] fails with the [IndexError] of
    [manifest_data[0]], which is no [TypeError]. *)
Theorem C1_get_app_manifest_empty_array (env : environ) :
  env !! "VELOCITAS_APP_MANIFEST" = Some "[]" →
  get_app_manifest env = Raise (IndexError "list index out of range") ∧
  ∀ msg, get_app_manifest env ≠ Raise (TypeError msg).
Proof.
  intros H.
  assert (get_app_manifest env = Raise (IndexError "list index out of range")) as ->
    by by apply (get_app_manifest_empty_array env "[]").
  done.
Qed.

Lemma C1_witness :
  get_app_manifest (<["VELOCITAS_APP_MANIFEST" := "[]"]> ∅)
    = Raise (IndexError "list index out of range") ∧
  ∀ msg, get_app_manifest (<["VELOCITAS_APP_MANIFEST" := "[]"]> ∅)
           ≠ Raise (TypeError msg).
Proof.
  apply (C1_get_app_manifest_empty_array (<["VELOCITAS_APP_MANIFEST" := "[]"]> ∅)).
  reflexivity.
Defined.

(** The other inputs the specification names behave as it says. *)
Example get_app_manifest_ex_object :
  get_app_manifest
    (<["VELOCITAS_APP_MANIFEST" := "{" +:+ quoted "a" +:+ ":1}"]> ∅)
  = Return (Json.VDict [("a", Json.VInt 1)]).
Proof. reflexivity. Qed.

Example get_app_manifest_ex_array :
  get_app_manifest
    (<["VELOCITAS_APP_MANIFEST" :=
         "[{" +:+ quoted "a" +:+ ":1},{" +:+ quoted "b" +:+ ":2}]"]> ∅)
  = Return (Json.VDict [("a", Json.VInt 1)]).
Proof. reflexivity. Qed.

Example get_app_manifest_ex_string :
  get_app_manifest (<["VELOCITAS_APP_MANIFEST" := quoted "x"]> ∅)
  = Raise (TypeError "Manifest must be a dict or array!").
Proof. reflexivity. Qed.

Example get_app_manifest_ex_array_of_numbers :
  get_app_manifest (<["VELOCITAS_APP_MANIFEST" := "[1, 2]"]> ∅)
  = Raise (TypeError "Manifest must be a dict or array!").
Proof. reflexivity. Qed.

Example get_app_manifest_ex_invalid :
  get_app_manifest (<["VELOCITAS_APP_MANIFEST" := "{a:1}"]> ∅)
  = Raise (JSONDecodeError "Expecting property name enclosed in double quotes").
Proof. reflexivity. Qed.

Example get_app_manifest_ex_unset :
  get_app_manifest ∅
  = Raise (ValueError "Environment variable 'VELOCITAS_APP_MANIFEST' not set!").
Proof. reflexivity. Qed.

(** ** [get_log_file_name] *)

Section LogFileName.

Lemma app_not_empty (s t : string) :
  t ≠ EmptyString → String.eqb (s +:+ t) EmptyString = false.
Proof.
  intros Ht. apply String.eqb_neq. destruct s as [|c s]; [done|].
  by rewrite app_cons.
Qed.

Lemma endswith_char_app (c : ascii) (s t : string) :
  t ≠ EmptyString →
  Str.endswith_char c (s +:+ t) = Str.endswith_char c t.
Proof.
  intros Ht. induction s as [|d s IH]; [done|].
  rewrite app_cons. simpl. rewrite IH.
  destruct (s +:+ t) eqn:Hst; [|done].
  destruct s; [|by rewrite app_cons in Hst]. by rewrite app_empty_l in Hst.
Qed.

Lemma startswith_sep_log (service_id : string) :
  Str.startswith "/" (service_id +:+ ".log") = Str.startswith "/" service_id.
Proof.
  apply eq_true_iff_eq. unfold Str.startswith. rewrite !prefix_spec.
  split; intros [after H].
  - destruct service_id as [|c s]; [done|].
    rewrite !app_cons, app_empty_l in H. injection H as -> _. by exists s.
  - exists (after +:+ ".log"). by rewrite H, app_assoc.
Qed.

(** Joining a relative component to a path that is not empty. *)
Lemma join2_relative (path b : string) :
  path ≠ EmptyString → Str.startswith "/" b = false →
  PosixPath.join2 path b = with_sep path +:+ b.
Proof.
  intros Hp Hb. unfold PosixPath.join2, with_sep. rewrite Hb.
  apply String.eqb_neq in Hp. rewrite Hp. simpl.
  destruct (Str.endswith_char "/" path); [done|].
  by rewrite app_assoc.
Qed.

Lemma with_sep_app (s t : string) :
  t ≠ EmptyString → with_sep (s +:+ t) = s +:+ with_sep t.
Proof.
  intros Ht. unfold with_sep.
  rewrite app_not_empty, endswith_char_app by done.
  apply String.eqb_neq in Ht. rewrite Ht. simpl.
  destruct (Str.endswith_char "/" t); [done|]. by rewrite app_assoc.
Qed.

Lemma with_sep_not_empty (s : string) : s ≠ EmptyString → with_sep s ≠ EmptyString.
Proof.
  unfold with_sep. intros Hs.
  destruct (String.eqb s EmptyString || Str.endswith_char "/" s); [done|].
  destruct s; [done|]. by rewrite app_cons.
Qed.

Lemma app_not_empty_l (s t : string) : s ≠ EmptyString → s +:+ t ≠ EmptyString.
Proof. destruct s; [done|]. by rewrite app_cons. Qed.

(** The result of the three joins, for components that are relative. *)
Lemma join_log_file_name (workspace_dir runtime_id service_id : string) :
  workspace_dir ≠ EmptyString →
  Str.startswith "/" runtime_id = false →
  Str.startswith "/" service_id = false →
  PosixPath.join workspace_dir ["logs"; runtime_id; service_id +:+ ".log"] =
    with_sep workspace_dir +:+ "logs/" +:+ with_sep runtime_id
    +:+ service_id +:+ ".log".
Proof.
  intros Hws Hrt Hsvc. unfold PosixPath.join. simpl.
  rewrite (join2_relative workspace_dir "logs") by done.
  pose proof (with_sep_not_empty _ Hws) as Hws'.
  rewrite (join2_relative _ runtime_id)
    by (done || by apply app_not_empty_l).
  rewrite (with_sep_app _ "logs") by done.
  change (with_sep "logs") with "logs/".
  rewrite (join2_relative _ (service_id +:+ ".log"))
    by (by rewrite startswith_sep_log || by repeat apply app_not_empty_l).
  destruct (decide (runtime_id = EmptyString)) as [->|Hne].
  - rewrite app_empty_r, (with_sep_app _ "logs/") by done.
    change (with_sep "logs/") with "logs/". change (with_sep "") with "".
    by rewrite app_empty_l, !app_assoc.
  - rewrite <- app_assoc, with_sep_app by done.
    by rewrite !app_assoc.
Qed.

(** C8, as stated, fails for a [runtime_id] that starts with a separator:
    [os.path.join] then drops the workspace directory and [logs]. *)
Lemma C8_counterexample :
  get_log_file_name (<["VELOCITAS_WORKSPACE_DIR" := "/ws"]> ∅) "svc" "/rt"
    = Return "/rt/svc.log" ∧
  get_log_file_name (<["VELOCITAS_WORKSPACE_DIR" := "/ws"]> ∅) "svc" "/rt"
    ≠ Return "/ws/logs//rt/svc.log".
Proof. split; [reflexivity|]. vm_compute. discriminate. Qed.

(** C8 (amended): when [get_workspace_dir] fails, [get_log_file_name] fails
    in the same way; when it returns [workspace_dir], and neither
    [runtime_id] nor [service_id] starts with a separator, the result is
    [workspace_dir], [logs], [runtime_id] and [service_id.log] with one
    separator between them (none is added to a component that ends with one,
    nor for an empty [runtime_id]).  With the workspace directory [/ws], the
    ids [svc] and [rt] give [/ws/logs/rt/svc.log]. *)
Theorem C8_get_log_file_name (env : environ) (service_id runtime_id : string) :
  (∀ e, get_workspace_dir env = Raise e →
        get_log_file_name env service_id runtime_id = Raise e) ∧
  (∀ workspace_dir,
     get_workspace_dir env = Return workspace_dir →
     Str.startswith "/" runtime_id = false →
     Str.startswith "/" service_id = false →
     get_log_file_name env service_id runtime_id =
       Return (with_sep workspace_dir +:+ "logs/" +:+ with_sep runtime_id
               +:+ service_id +:+ ".log")) ∧
  get_log_file_name (<["VELOCITAS_WORKSPACE_DIR" := "/ws"]> ∅) "svc" "rt"
    = Return "/ws/logs/rt/svc.log".
Proof.
  split; [|split; [|reflexivity]].
  - intros e He. unfold get_log_file_name. by rewrite He.
  - intros workspace_dir Hws Hrt Hsvc. unfold get_log_file_name. rewrite Hws.
    simpl. f_equal. apply join_log_file_name; try done.
    intros ->. unfold get_workspace_dir, require_env in Hws.
    destruct (Os.getenv env "VELOCITAS_WORKSPACE_DIR") as [[|]|]; simpl in Hws;
      congruence.
Qed.

Lemma C8_witness :
  get_workspace_dir (<["VELOCITAS_WORKSPACE_DIR" := "/home/ws/"]> ∅)
    = Return "/home/ws/" ∧
  get_log_file_name (<["VELOCITAS_WORKSPACE_DIR" := "/home/ws/"]> ∅) "mqtt" "local"
    = Return "/home/ws/logs/local/mqtt.log".
Proof.
  split; [reflexivity|].
  apply (proj1 (proj2 (C8_get_log_file_name
                         (<["VELOCITAS_WORKSPACE_DIR" := "/home/ws/"]> ∅)
                         "mqtt" "local")) "/home/ws/"); reflexivity.
Defined.

End LogFileName.

(** ** [replace_in_file] *)

Section Replace.

(** [str.replace] with a text to find that is not empty: an occurrence at
    the front is replaced and the search goes on after it; a character that
    starts no occurrence is kept. *)
Lemma replace_go_skip (old new : string) (passed rest : string) :
  Str.replace_go old new (String.length passed) (passed +:+ rest) =
    Str.replace_go old new 0 rest.
Proof.
  induction passed as [|c passed IH]; [done|].
  rewrite app_cons. simpl. apply IH.
Qed.

Lemma replace_at_occurrence (old new s : string) :
  old ≠ EmptyString →
  Str.replace old new (old +:+ s) = new +:+ Str.replace old new s.
Proof.
  destruct old as [|a old]; [done|]. intros _.
  unfold Str.replace. rewrite app_cons.
  change (Str.replace_go (String a old) new 0 (String a (old +:+ s)))
    with (if String.prefix (String a old) (String a (old +:+ s))
          then new +:+ Str.replace_go (String a old) new
                         (String.length (String a old) - 1) (old +:+ s)
          else String a (Str.replace_go (String a old) new 0 (old +:+ s))).
  assert (String.prefix (String a old) (String a (old +:+ s)) = true) as ->.
  { apply prefix_spec. exists s. by rewrite app_cons. }
  replace (String.length (String a old) - 1)%nat with (String.length old)
    by (simpl; lia).
  by rewrite replace_go_skip.
Qed.

Lemma replace_elsewhere (old new : string) (c : ascii) (s : string) :
  old ≠ EmptyString →
  String.prefix old (String c s) = false →
  Str.replace old new (String c s) = String c (Str.replace old new s).
Proof.
  destruct old as [|a old]; [done|]. intros _ H.
  unfold Str.replace.
  change (Str.replace_go (String a old) new 0 (String c s))
    with (if String.prefix (String a old) (String c s)
          then new +:+ Str.replace_go (String a old) new
                         (String.length (String a old) - 1) s
          else String c (Str.replace_go (String a old) new 0 s)).
  by rewrite H.
Qed.

(** The lines of a text are the text, cut after each line feed. *)
Lemma lines_join (s : string) : Str.join "" (Fs.lines s) = s.
Proof.
  induction s as [|c s IH]; [done|]. simpl.
  destruct (Ascii.eqb_spec c Fs.LF) as [->|Hc].
  - by rewrite join_empty_cons, IH.
  - destruct (Fs.lines s) as [|l ls].
    + by rewrite <- IH.
    + rewrite join_empty_cons in *. by rewrite app_cons, IH.
Qed.

(** A text without a carriage return is read as it is. *)
Lemma universal_newlines_without_cr (s : string) :
  Str.has_char Fs.CR s = false → Fs.universal_newlines s = s.
Proof.
  induction s as [|c s IH]; [done|]. simpl.
  destruct (Ascii.eqb c Fs.CR); [done|]. simpl. intros H. by rewrite IH.
Qed.

(** The loop that fills [buffer]. *)
Lemma buffer_loop (f : string → string) (lines acc : list string) :
  fold_left (λ buffer line, buffer ++ [f line]) lines acc = acc ++ map f lines.
Proof.
  revert acc. induction lines as [|l lines IH]; intros acc; simpl.
  - by rewrite app_nil_r.
  - by rewrite IH, <- (assoc_L (++)).
Qed.

Lemma join_empty_snoc (pieces : list string) (piece : string) :
  Str.join "" (pieces ++ [piece]) = Str.join "" pieces +:+ piece.
Proof.
  induction pieces as [|p pieces IH].
  - by rewrite app_nil_l, join_empty_cons, app_empty_r.
  - by rewrite <- app_comm_cons, !join_empty_cons, IH, app_assoc.
Qed.

(** The first characters of two texts, one after the other. *)
Lemma take_empty (n : nat) : Str.take n EmptyString = EmptyString.
Proof. by destruct n. Qed.

Lemma take_all (n : nat) (s : string) :
  (String.length s ≤ n)%nat → Str.take n s = s.
Proof.
  revert n. induction s as [|c s IH]; intros n Hn; [apply take_empty|].
  destruct n as [|n]; simpl in *; [lia|]. rewrite IH; [done|lia].
Qed.

Lemma take_app_fits (n : nat) (s t : string) :
  (String.length s ≤ n)%nat →
  Str.take n (s +:+ t) = s +:+ Str.take (n - String.length s) t.
Proof.
  revert n. induction s as [|c s IH]; intros n Hn.
  - by rewrite !app_empty_l, Nat.sub_0_r.
  - destruct n as [|n]; simpl in *; [lia|].
    rewrite !app_cons. simpl. rewrite IH; [done|lia].
Qed.

Lemma take_app_short (n : nat) (s t : string) :
  (n ≤ String.length s)%nat → Str.take n (s +:+ t) = Str.take n s.
Proof.
  revert n. induction s as [|c s IH]; intros n Hn.
  - simpl in Hn. by replace n with 0%nat by lia.
  - destruct n as [|n]; [done|]. simpl in Hn.
    rewrite app_cons. simpl. rewrite IH; [done|lia].
Qed.

(** The loop that writes the lines, on a device that does not fail, and on
    one that has room for [room] more characters: the file gets the first
    [room] characters of what the lines make. *)
Lemma write_loop_ok (file : string) (buffer : list string) (w : world)
    (written : string) :
  files w !! file = Some written → writes_left w = None →
  for_each buffer (λ line, Fs.write file line) w =
    (Return tt, with_files w (<[file := written +:+ Str.join "" buffer]> (files w))).
Proof.
  revert w written. induction buffer as [|line buffer IH]; intros w written Hf Hw.
  - simpl. change (Str.join "" []) with EmptyString.
    rewrite app_empty_r, insert_id by done. by destruct w.
  - simpl. unfold mbind, io_bind, Fs.write at 1. rewrite Hw, Hf. simpl.
    erewrite IH; [|by apply lookup_insert_eq|done].
    rewrite join_empty_cons, app_assoc.
    unfold with_files. simpl. by rewrite insert_insert_eq.
Qed.

Lemma write_loop_room (file : string) (buffer : list string) (w : world)
    (written : string) (room : nat) :
  files w !! file = Some written → writes_left w = Some room →
  for_each buffer (λ line, Fs.write file line) w =
    (if (String.length (Str.join "" buffer) <=? room)%nat
     then Return tt else Raise (OSError "No space left on device"),
     with_writes_left
       (with_files w
          (<[file := written +:+ Str.take room (Str.join "" buffer)]> (files w)))
       (Some (room - String.length (Str.join "" buffer))%nat)).
Proof.
  revert w written room.
  induction buffer as [|line buffer IH]; intros w written room Hf Hw.
  - simpl. change (Str.join "" []) with EmptyString.
    rewrite take_empty, app_empty_r, insert_id by done. simpl.
    rewrite Nat.sub_0_r. destruct w; simpl in *. by subst.
  - simpl. unfold mbind, io_bind, Fs.write at 1. rewrite Hw, Hf. simpl.
    rewrite join_empty_cons, length_app.
    destruct (Nat.leb_spec (String.length line) room) as [Hfit|Hfit].
    + erewrite IH; [|by apply lookup_insert_eq|done].
      rewrite take_app_fits by done.
      replace (String.length line + String.length (Str.join "" buffer) <=? room)%nat
        with (String.length (Str.join "" buffer) <=? room - String.length line)%nat
        by (apply eq_true_iff_eq; rewrite !Nat.leb_le; lia).
      unfold with_files, with_writes_left. simpl.
      rewrite insert_insert_eq, app_assoc. do 3 f_equal. lia.
    + rewrite take_app_short by lia.
      destruct (Nat.leb_spec
                  (String.length line + String.length (Str.join "" buffer)) room);
        [lia|].
      unfold with_files, with_writes_left. simpl. do 3 f_equal. lia.
Qed.

(** What [replace_in_file] does to a file that exists and decodes: it
    empties the file and writes the lines. *)
Lemma replace_in_file_loop (w : world)
    (file_path text replacement content : string) :
  files w !! file_path = Some content → Utf8.valid content = true →
  replace_in_file file_path text replacement w =
    for_each (rewritten_lines text replacement content)
             (λ line, Fs.write file_path line)
             (with_files w (<[file_path := EmptyString]> (files w))).
Proof.
  intros Hf Hv.
  unfold replace_in_file, mbind, io_bind, Fs.open_read. rewrite Hf, Hv.
  unfold Fs.open_write, Fs.isfile. rewrite Hf.
  rewrite bool_decide_true by done.
  by rewrite buffer_loop.
Qed.

(** ASCII text decodes. *)
Lemma valid_ascii (s : string) : Str.is_ascii s = true → Utf8.valid s = true.
Proof.
  induction s as [|c s IH]; [done|]. simpl.
  intros [Hc Hs]%andb_true_iff.
  assert (Utf8.in_range 0 127 c = true) as ->; [|by apply IH].
  unfold Utf8.in_range, Str.is_ascii_char in *.
  apply Nat.ltb_lt in Hc. apply andb_true_iff.
  split; apply Nat.leb_le; lia.
Qed.

(** C9, as stated, fails for a file with a carriage return: text mode reads
    it as a line feed, and so it is written back, though the text to find
    does not occur in the file. *)
Lemma C9_counterexample :
  Utf8.valid cr_content = true ∧
  Str.contains "x" cr_content = false ∧
  (replace_in_file "f.txt" "x" "y" cr_world).1 = Return tt ∧
  files (replace_in_file "f.txt" "x" "y" cr_world).2 !! "f.txt"
    = Some (String "a" (String Fs.LF (String "b" EmptyString))) ∧
  files (replace_in_file "f.txt" "x" "y" cr_world).2 !! "f.txt"
    ≠ files cr_world !! "f.txt".
Proof. repeat split; try by vm_compute. Qed.

(** C9 (amended): for a file that exists and holds UTF-8 text, and for a
    [text] and a [replacement] that are given by their UTF-8 bytes as the
    content is, [replace_in_file] makes the content of the file the lines of
    the original content, read in text mode (a carriage return, alone or
    before a line feed, becomes a line feed), each with every occurrence of
    [text] replaced by [replacement]; no other file changes.  The file is
    emptied and written anew: when the device has room for less than the
    new content, the call fails and the file is left with the part of the
    new content that the device had room for. *)
Theorem C9_replace_in_file (w : world)
    (file_path text replacement content : string) :
  files w !! file_path = Some content →
  Utf8.valid content = true →
  Utf8.valid text = true → Utf8.valid replacement = true →
  (writes_left w = None →
   replace_in_file file_path text replacement w =
     (Return tt,
      with_files w
        (<[file_path := rewritten text replacement content]> (files w)))) ∧
  (∀ room : nat,
     writes_left w = Some room →
     (String.length (rewritten text replacement content) ≤ room)%nat →
     replace_in_file file_path text replacement w =
       (Return tt,
        with_writes_left
          (with_files w
             (<[file_path := rewritten text replacement content]> (files w)))
          (Some (room - String.length (rewritten text replacement content))%nat))) ∧
  (∀ room : nat,
     writes_left w = Some room →
     (room < String.length (rewritten text replacement content))%nat →
     replace_in_file file_path text replacement w =
       (Raise (OSError "No space left on device"),
        with_writes_left
          (with_files w
             (<[file_path := Str.take room (rewritten text replacement content)]>
                (files w)))
          (Some 0%nat))).
Proof.
  intros Hf Hv _ _. rewrite (replace_in_file_loop w _ _ _ content Hf Hv).
  fold (rewritten text replacement content).
  split; [|split].
  - intros Hw. erewrite write_loop_ok; [|by apply lookup_insert_eq|done].
    unfold with_files. simpl. by rewrite insert_insert_eq, app_empty_l.
  - intros room Hw Hroom.
    erewrite write_loop_room; [|by apply lookup_insert_eq|done].
    fold (rewritten text replacement content).
    destruct (Nat.leb_spec (String.length (rewritten text replacement content)) room);
      [|lia].
    unfold with_files, with_writes_left. simpl.
    by rewrite insert_insert_eq, app_empty_l, take_all.
  - intros room Hw Hroom.
    erewrite write_loop_room; [|by apply lookup_insert_eq|done].
    fold (rewritten text replacement content).
    destruct (Nat.leb_spec (String.length (rewritten text replacement content)) room);
      [lia|].
    unfold with_files, with_writes_left. simpl.
    rewrite insert_insert_eq, app_empty_l. do 3 f_equal. lia.
Qed.

Lemma C9_witness :
  (files lf_world !! "f.txt" = Some lf_content ∧
   Utf8.valid lf_content = true ∧ Utf8.valid "a" = true ∧ Utf8.valid "b" = true) ∧
  replace_in_file "f.txt" "a" "b" lf_world =
    (Return tt,
     with_files lf_world
       (<["f.txt" := rewritten "a" "b" lf_content]> (files lf_world))).
Proof.
  split; [by repeat split|].
  apply (proj1 (C9_replace_in_file lf_world "f.txt" "a" "b" lf_content
                  eq_refl eq_refl eq_refl eq_refl)).
  reflexivity.
Defined.

(** A device with room for one character: the file is cut inside its first
    line. *)
Example replace_in_file_partial :
  replace_in_file "f.txt" "a" "bb" (with_writes_left lf_world (Some 1%nat)) =
    (Raise (OSError "No space left on device"),
     World {["f.txt" := "b"]} ∅ ∅ (Some 0%nat)).
Proof. by vm_compute. Qed.

(** A character of two bytes: it is found as a whole, and a text that is
    empty goes before each character, not inside one. *)
Example replace_in_file_two_bytes :
  let e_acute := String (ascii_of_nat 195) (String (ascii_of_nat 169) EmptyString) in
  Utf8.valid e_acute = true ∧
  Str.replace e_acute "e" ("caf" +:+ e_acute) = "cafe" ∧
  Str.replace "" "-" ("caf" +:+ e_acute) = "-c-a-f-" +:+ e_acute +:+ "-".
Proof. by vm_compute. Qed.

End Replace.

(** ** [download_file] *)

Section Download.

(** The pieces [iter_content] gives are the content, in order. *)
Lemma iter_slices_join (fuel : nat) (content : string) (n : nat) :
  (0 < n)%nat → (String.length content ≤ fuel)%nat →
  Str.join "" (Requests.iter_slices fuel content n) = content.
Proof.
  intros Hn. revert content.
  induction fuel as [|fuel IH]; intros [|c content] Hlen; try done.
  - simpl in Hlen. lia.
  - change (Requests.iter_slices (S fuel) (String c content) n)
      with (Str.take n (String c content)
            :: Requests.iter_slices fuel (Str.drop n (String c content)) n).
    rewrite join_empty_cons, IH, take_drop; [done|].
    rewrite length_drop. simpl in *. lia.
Qed.

Lemma iter_content_join (content : string) (n : nat) :
  Str.join "" (Requests.iter_content content n) = content.
Proof.
  unfold Requests.iter_content.
  destruct (Nat.eqb_spec n 0) as [->|Hn].
  - destruct content as [|c content]; [done|].
    apply iter_slices_join; simpl; lia.
  - apply iter_slices_join; lia.
Qed.

(** A path without a separator has an empty directory part. *)
Lemma split_bare_name (p : string) :
  Str.has_char "/" p = false → PosixPath.split p = (EmptyString, p).
Proof.
  destruct p as [|c p]; [done|]. simpl. unfold PosixPath.split. simpl.
  unfold PosixPath.is_sep.
  destruct (Ascii.eqb c "/"); [done|]. simpl. by intros ->.
Qed.

(** [os.makedirs] of the empty path fails. *)
Lemma makedirs_empty (w : world) :
  Fs.makedirs EmptyString w = (Raise (FileNotFoundError EmptyString), w).
Proof. reflexivity. Qed.

(** C10, at the inputs that break it: for a local path without a directory
    part, the directory [download_file] makes is the empty path; the call
    fails with the [FileNotFoundError] of [os.makedirs], and the answer of
    the server is not written. *)
Theorem C10_download_file_bare_name (w : world) (uri local_file_path body : string) :
  network w !! uri = Some body →
  Str.has_char "/" local_file_path = false →
  download_file uri local_file_path w = (Raise (FileNotFoundError EmptyString), w).
Proof.
  intros Hnet Hbare.
  unfold download_file, mbind, io_bind, Requests.get. rewrite Hnet.
  by rewrite (split_bare_name _ Hbare), makedirs_empty.
Qed.

Lemma C10_witness :
  network web_world !! "http://host/data.bin" = Some "0123456789" ∧
  download_file "http://host/data.bin" "data.bin" web_world
    = (Raise (FileNotFoundError EmptyString), web_world).
Proof.
  split; [reflexivity|].
  apply (C10_download_file_bare_name web_world _ "data.bin" "0123456789");
    reflexivity.
Defined.

(** With a directory part, the directories that are missing are made and the
    body is written. *)
Example download_file_ex_new_directories :
  download_file "http://host/data.bin" "/d/new/sub/data.bin" web_world =
    (Return tt,
     World {["/d/new/sub/data.bin" := "0123456789"]}
           ({["/d/new/sub"]} ∪ ({["/d/new"]} ∪ {["/d"]}))
           (network web_world) None).
Proof.
  destruct (download_file "http://host/data.bin" "/d/new/sub/data.bin" web_world)
    as [r w'] eqn:H.
  vm_compute in H. injection H as <- <-. f_equal.
Qed.

End Download.

(** ** Further properties *)

Section Further.

(** For ASCII text, the output of [to_camel_case] is ASCII text that holds
    no hyphen, and a second application capitalizes it as one segment. *)
Theorem to_camel_case_output (s : string) :
  Str.is_ascii s = true →
  ∃ once : string,
    to_camel_case s = Some once ∧
    Str.is_ascii once = true ∧
    Str.has_char "-" once = false ∧
    to_camel_case once = Str.capitalize once.
Proof.
  intros H. exists (camel_case_ascii s).
  pose proof (is_ascii_camel_case s H) as Honce.
  split; [by apply to_camel_case_ascii|]. split; [done|].
  split; [apply camel_case_no_hyphen|].
  by rewrite to_camel_case_ascii, capitalize_ascii_value, camel_case_twice.
Qed.

Lemma to_camel_case_output_witness :
  Str.is_ascii "vehicle-app-SDK" = true ∧
  ∃ once : string,
    to_camel_case "vehicle-app-SDK" = Some once ∧
    Str.is_ascii once = true ∧
    Str.has_char "-" once = false ∧
    to_camel_case once = Str.capitalize once.
Proof.
  split; [reflexivity|].
  apply (to_camel_case_output "vehicle-app-SDK"). reflexivity.
Defined.

(** An input of exactly [length] characters is truncated too, the test of
    [create_truncated_string] being [len(input) < length]: the marker takes
    the place of its first three characters.  The input comes back as it is
    only when these three characters are the marker. *)
Theorem truncate_at_exact_length (s : string) (length : Z) :
  3 < length → Str.len s = length →
  ∃ front back : string,
    s = front +:+ back ∧
    Str.len front = 3 ∧
    create_truncated_string s length = "..." +:+ back ∧
    (create_truncated_string s length = s ↔ front = "...").
Proof.
  intros H3 Hlen.
  destruct (truncate_tail s length) as (front & back & Hs & Hb & Hr & _); [lia..|].
  assert (Str.len front = 3) as Hfront by (rewrite Hs, len_app in Hlen; lia).
  exists front, back. repeat split; try done.
  - rewrite Hr, Hs at 1. intros Heq.
    apply app_inj_length in Heq as [Heq _]; [done|].
    unfold Str.len in Hfront. simpl. lia.
  - intros ->. by rewrite Hr, Hs.
Qed.

Lemma truncate_at_exact_length_witness :
  (3 < 6 ∧ Str.len "abcdef" = 6) ∧
  ∃ front back : string,
    "abcdef" = front +:+ back ∧
    Str.len front = 3 ∧
    create_truncated_string "abcdef" 6 = "..." +:+ back ∧
    (create_truncated_string "abcdef" 6 = "abcdef" ↔ front = "...").
Proof.
  split; [by vm_compute|].
  apply (truncate_at_exact_length "abcdef" 6); by vm_compute.
Defined.

(** The two cases, on inputs of six characters. *)
Example truncate_ex_exact_length :
  create_truncated_string "abcdef" 6 = "...def" ∧
  create_truncated_string "...def" 6 = "...def".
Proof. by vm_compute. Qed.

(** The pieces [download_file] writes: they are the body, in order, and each
    holds between one and [chunk_size] characters. *)
Lemma iter_slices_sizes (fuel : nat) (content : string) (n : nat) :
  (0 < n)%nat →
  Forall (λ piece, (0 < String.length piece ≤ n)%nat)
         (Requests.iter_slices fuel content n).
Proof.
  intros Hn. revert content.
  induction fuel as [|fuel IH]; intros [|c content]; try by constructor.
  change (Requests.iter_slices (S fuel) (String c content) n)
    with (Str.take n (String c content)
          :: Requests.iter_slices fuel (Str.drop n (String c content)) n).
  constructor; [|apply IH].
  rewrite length_take. simpl. lia.
Qed.

Theorem iter_content_chunks (body : string) :
  Str.join "" (Requests.iter_content body chunk_size) = body ∧
  Forall (λ piece, (0 < String.length piece ≤ chunk_size)%nat)
         (Requests.iter_content body chunk_size).
Proof.
  split; [apply iter_content_join|].
  unfold Requests.iter_content.
  change (chunk_size =? 0)%nat with false.
  apply iter_slices_sizes. unfold chunk_size. lia.
Qed.

(** [get_cache_data]: the decoded value when it is an object, a [TypeError]
    for every other value, and the error of the decoder for a text that is
    no JSON. *)
Theorem get_cache_data_cases (env : environ) (text : string) :
  env !! "VELOCITAS_CACHE_DATA" = Some text → text ≠ EmptyString →
  (∀ pairs, Json.loads text = Return (Json.VDict pairs) →
            get_cache_data env = Return (Json.VDict pairs)) ∧
  (∀ v, Json.loads text = Return v → Json.is_dict v = false →
        get_cache_data env =
          Raise (TypeError "VELOCITAS_CACHE_DATA has to be a JSON object!")) ∧
  (∀ e, Json.loads text = Raise e → get_cache_data env = Raise e).
Proof.
  intros Henv Htext.
  assert (get_cache_data env =
            (cache_data ← Json.loads text;
             if negb (Json.is_dict cache_data)
             then Raise (TypeError "VELOCITAS_CACHE_DATA has to be a JSON object!")
             else Return cache_data)) as ->.
  { unfold get_cache_data. by rewrite (require_env_set env _ text Henv Htext). }
  repeat split.
  - intros pairs H. by rewrite H.
  - intros v H Hv. rewrite H. simpl. by rewrite Hv.
  - intros e H. by rewrite H.
Qed.

Lemma get_cache_data_cases_witness :
  get_cache_data (<["VELOCITAS_CACHE_DATA" := "[]"]> ∅)
    = Raise (TypeError "VELOCITAS_CACHE_DATA has to be a JSON object!").
Proof.
  assert (<["VELOCITAS_CACHE_DATA" := "[]"]> (∅ : environ)
            !! "VELOCITAS_CACHE_DATA" = Some "[]") as Henv by reflexivity.
  apply (proj1 (proj2 (get_cache_data_cases _ "[]" Henv ltac:(done)))
           (Json.VList [])); reflexivity.
Defined.

(** [get_app_manifest], by the shape of the decoded value: an object is
    returned; an array that starts with an object gives that object; an
    array that starts with another value, and a value that is neither an
    object nor an array, raise a [TypeError]; the empty array raises an
    [IndexError]; a text that is no JSON raises the error of the decoder. *)
Theorem get_app_manifest_cases (env : environ) (text : string) :
  env !! "VELOCITAS_APP_MANIFEST" = Some text → text ≠ EmptyString →
  (∀ pairs, Json.loads text = Return (Json.VDict pairs) →
            get_app_manifest env = Return (Json.VDict pairs)) ∧
  (∀ pairs rest,
     Json.loads text = Return (Json.VList (Json.VDict pairs :: rest)) →
     get_app_manifest env = Return (Json.VDict pairs)) ∧
  (∀ first rest,
     Json.loads text = Return (Json.VList (first :: rest)) →
     Json.is_dict first = false →
     get_app_manifest env = Raise (TypeError "Manifest must be a dict or array!")) ∧
  (∀ v, Json.loads text = Return v →
        Json.is_dict v = false → Json.is_list v = false →
        get_app_manifest env = Raise (TypeError "Manifest must be a dict or array!")) ∧
  (Json.loads text = Return (Json.VList []) →
   get_app_manifest env = Raise (IndexError "list index out of range")) ∧
  (∀ e, Json.loads text = Raise e → get_app_manifest env = Raise e).
Proof.
  intros Henv Htext. repeat split.
  - apply get_app_manifest_object; done.
  - apply get_app_manifest_array; done.
  - intros first rest H Hf.
    apply (get_app_manifest_other env text Henv Htext _ H); [done|].
    intros items [= <-]. by exists first, rest.
  - intros v H Hd Hl.
    apply (get_app_manifest_other env text Henv Htext _ H); [done|].
    intros items ->. done.
  - apply get_app_manifest_empty_array; done.
  - intros e. apply get_app_manifest_invalid; done.
Qed.

Lemma get_app_manifest_cases_witness :
  get_app_manifest (<["VELOCITAS_APP_MANIFEST" := quoted "x"]> ∅)
    = Raise (TypeError "Manifest must be a dict or array!").
Proof.
  assert (<["VELOCITAS_APP_MANIFEST" := quoted "x"]> (∅ : environ)
            !! "VELOCITAS_APP_MANIFEST" = Some (quoted "x")) as Henv by reflexivity.
  apply (proj1 (proj2 (proj2 (proj2
           (get_app_manifest_cases _ (quoted "x") Henv ltac:(done)))))
           (Json.VStr "x")); reflexivity.
Defined.

End Further.

(** ** [download_file] into a directory that exists *)

Section DownloadInto.

Lemma endswith_char_cons (c d : ascii) (s : string) :
  s ≠ EmptyString → Str.endswith_char c (String d s) = Str.endswith_char c s.
Proof. by destruct s. Qed.

Lemma endswith_has_char (c : ascii) (s : string) :
  Str.endswith_char c s = true → Str.has_char c s = true.
Proof.
  induction s as [|d s IH]; [done|].
  destruct s as [|e s].
  - simpl. intros ->. done.
  - rewrite endswith_char_cons by done. intros H. simpl in *.
    rewrite (IH H). apply orb_true_r.
Qed.

Lemma not_all_seps (p : string) :
  p ≠ EmptyString → Str.endswith_char "/" p = false → PosixPath.all_seps p = false.
Proof.
  induction p as [|c p IH]; [done|]. intros _.
  destruct p as [|d p].
  - simpl. unfold PosixPath.is_sep. by intros ->.
  - rewrite endswith_char_cons by done. intros H.
    change (PosixPath.all_seps (String c (String d p)))
      with (PosixPath.is_sep c && PosixPath.all_seps (String d p)).
    rewrite IH by done. apply andb_false_r.
Qed.

Lemma rstrip_sep_id (p : string) :
  Str.endswith_char "/" p = false → Str.rstrip_by PosixPath.is_sep p = p.
Proof.
  induction p as [|c p IH]; [done|].
  destruct p as [|d p].
  - simpl. unfold PosixPath.is_sep. by intros ->.
  - rewrite endswith_char_cons by done. intros H.
    change (Str.rstrip_by PosixPath.is_sep (String c (String d p)))
      with (match Str.rstrip_by PosixPath.is_sep (String d p) with
            | EmptyString =>
                if PosixPath.is_sep c then EmptyString else String c EmptyString
            | r' => String c r'
            end).
    by rewrite IH.
Qed.

Lemma rstrip_sep_app (p : string) :
  p ≠ EmptyString → Str.endswith_char "/" p = false →
  Str.rstrip_by PosixPath.is_sep (p +:+ "/") = p.
Proof.
  induction p as [|c p IH]; [done|]. intros _.
  destruct p as [|d p].
  - simpl. unfold PosixPath.is_sep. by intros ->.
  - rewrite endswith_char_cons by done. intros H.
    rewrite app_cons.
    change (Str.rstrip_by PosixPath.is_sep (String c (String d p +:+ "/")))
      with (match Str.rstrip_by PosixPath.is_sep (String d p +:+ "/") with
            | EmptyString =>
                if PosixPath.is_sep c then EmptyString else String c EmptyString
            | r' => String c r'
            end).
    by rewrite IH.
Qed.

Lemma rpartition_app (dir name : string) :
  Str.has_char "/" name = false →
  PosixPath.rpartition (dir +:+ String "/" name) = (dir +:+ "/", name).
Proof.
  intros Hname. induction dir as [|c dir IH].
  - rewrite !app_empty_l. simpl. by rewrite Hname.
  - rewrite !app_cons.
    change (PosixPath.rpartition (String c (dir +:+ String "/" name)))
      with (if Str.has_char "/" (dir +:+ String "/" name)
            then let '(head, tail) := PosixPath.rpartition (dir +:+ String "/" name)
                 in (String c head, tail)
            else if PosixPath.is_sep c
                 then (String c EmptyString, dir +:+ String "/" name)
                 else (EmptyString, String c (dir +:+ String "/" name))).
    rewrite has_char_app. change (Str.has_char "/" (String "/" name)) with true.
    by rewrite orb_true_r, IH.
Qed.

Lemma all_seps_app (s t : string) :
  PosixPath.all_seps (s +:+ t) = PosixPath.all_seps s && PosixPath.all_seps t.
Proof.
  induction s as [|c s IH]; [done|].
  rewrite app_cons. simpl. by rewrite IH, andb_assoc.
Qed.

Lemma split_app (dir name : string) :
  dir ≠ EmptyString → Str.endswith_char "/" dir = false →
  Str.has_char "/" name = false →
  PosixPath.split (dir +:+ String "/" name) = (dir, name).
Proof.
  intros Hd He Hname. unfold PosixPath.split.
  rewrite rpartition_app by done.
  rewrite app_not_empty by done.
  rewrite all_seps_app, not_all_seps by done. simpl.
  by rewrite rstrip_sep_app.
Qed.

(** The last component of a path that does not end with a separator. *)
Lemma rpartition_tail (p : string) :
  p ≠ EmptyString → Str.endswith_char "/" p = false →
  (PosixPath.rpartition p).2 ≠ EmptyString.
Proof.
  induction p as [|c p IH]; [done|]. intros _ He.
  change (PosixPath.rpartition (String c p))
    with (if Str.has_char "/" p
          then let '(head, tail) := PosixPath.rpartition p in (String c head, tail)
          else if PosixPath.is_sep c then (String c EmptyString, p)
               else (EmptyString, String c p)).
  destruct (Str.has_char "/" p) eqn:Hp.
  - assert (p ≠ EmptyString) as Hne by (by destruct p).
    rewrite endswith_char_cons in He by done.
    specialize (IH Hne He). by destruct (PosixPath.rpartition p).
  - destruct (PosixPath.is_sep c) eqn:Hc; [|done]. simpl.
    intros ->. simpl in He. unfold PosixPath.is_sep in Hc. congruence.
Qed.

Lemma split_tail (p : string) :
  p ≠ EmptyString → Str.endswith_char "/" p = false →
  (PosixPath.split p).2 ≠ EmptyString.
Proof.
  intros Hp He. pose proof (rpartition_tail p Hp He) as H.
  unfold PosixPath.split. destruct (PosixPath.rpartition p) as [head tail].
  by destruct (negb (String.eqb head EmptyString) && negb (PosixPath.all_seps head)).
Qed.

Lemma norm_id (p : string) :
  Str.endswith_char "/" p = false → Fs.norm p = p.
Proof.
  intros He. unfold Fs.norm.
  destruct (PosixPath.all_seps p); [done|]. by apply rstrip_sep_id.
Qed.

(** [os.makedirs] of a directory that exists changes nothing. *)
Lemma makedirs_existing (w : world) (dir : string) :
  dir ≠ EmptyString → Str.endswith_char "/" dir = false →
  Fs.isdir w dir = true → Fs.parent_ok w dir = true →
  Fs.makedirs dir w = (Return tt, w).
Proof.
  intros Hd He Hdir Hparent.
  unfold Fs.makedirs. 
  change (Fs.makedirs_go (S (String.length dir)) dir w) with
    (let '(head, tail) := PosixPath.split dir in
      let '(head, tail) :=
        if String.eqb tail EmptyString then PosixPath.split head else (head, tail) in
      let above : bool :=
        negb (String.eqb head EmptyString) && negb (String.eqb tail EmptyString)
        && negb (Fs.exists_ w head) in
      let '(r, w1) :=
        if above then
          match Fs.makedirs_go (String.length dir) head w with
          | (Raise (FileExistsError _), w') => (Return tt, w')
          | other => other
          end
        else (Return tt, w) in
      match r with
      | Raise e => (Raise e, w1)
      | Return _ =>
          if above && String.eqb tail "." then (Return tt, w1)
          else
            match Fs.mkdir dir w1 with
            | (Raise e, w2) => if Fs.isdir w2 dir then (Return tt, w2) else (Raise e, w2)
            | done => done
            end
      end).
  pose proof (split_tail dir Hd He) as Htail.
  unfold Fs.parent_ok in Hparent. rewrite norm_id in Hparent by done.
  unfold PosixPath.dirname in Hparent.
  destruct (PosixPath.split dir) as [head tail]. simpl in Htail, Hparent.
  apply String.eqb_neq in Htail. rewrite Htail.
  cbv beta iota zeta. rewrite Htail.
  assert (negb (String.eqb head EmptyString) && negb false
          && negb (Fs.exists_ w head) = false) as ->.
  { unfold Fs.exists_. destruct (String.eqb head EmptyString); [done|].
    simpl in Hparent. by rewrite Hparent. }
  cbv beta iota zeta.
  unfold Fs.mkdir. apply String.eqb_neq in Hd. rewrite Hd.
  unfold Fs.exists_. rewrite Hdir. simpl. by rewrite Hdir.
Qed.


(** [open] for writing, for a new or an existing file in a directory that
    exists. *)
Lemma open_write_in_directory (w : world) (dir name : string) :
  dir ≠ EmptyString → Str.endswith_char "/" dir = false →
  Fs.isdir w dir = true →
  name ≠ EmptyString → Str.has_char "/" name = false →
  Fs.isdir w (dir +:+ String "/" name) = false →
  Fs.open_write (dir +:+ String "/" name) w =
    (Return (dir +:+ String "/" name),
     with_files w (<[dir +:+ String "/" name := EmptyString]> (files w))).
Proof.
  intros Hd He Hdir Hn Hname Hnodir.
  set (path := dir +:+ String "/" name).
  assert (Str.endswith_char "/" path = false) as Hend.
  { unfold path. rewrite endswith_char_app by done.
    rewrite endswith_char_cons by done.
    destruct (Str.endswith_char "/" name) eqn:H; [|done].
    apply endswith_has_char in H. congruence. }
  unfold Fs.open_write. destruct (Fs.isfile w path); [done|].
  fold path in Hnodir. rewrite Hnodir, Hend.
  assert (String.eqb path EmptyString = false) as ->
    by (by apply app_not_empty).
  assert (Fs.parent_ok w path = true) as ->; [|done].
  unfold Fs.parent_ok, PosixPath.dirname. rewrite norm_id by done.
  unfold path. rewrite split_app by done. simpl. rewrite Hdir.
  apply orb_true_r.
Qed.

(** For a local path in a directory that exists, [download_file] leaves the
    body of the answer in the file, and changes nothing else. *)
Theorem download_file_into_directory (w : world) (uri dir name body : string) :
  network w !! uri = Some body →
  writes_left w = None →
  dir ≠ EmptyString → Str.endswith_char "/" dir = false →
  Fs.isdir w dir = true → Fs.parent_ok w dir = true →
  is_name name →
  Fs.isdir w (dir +:+ "/" +:+ name) = false →
  download_file uri (dir +:+ "/" +:+ name) w =
    (Return tt, with_files w (<[dir +:+ "/" +:+ name := body]> (files w))).
Proof.
  intros Hnet Hw Hd He Hdir Hparent (Hn & Hname & _ & _) Hnodir.
  change ("/" +:+ name) with (String "/" name) in *.
  unfold download_file, mbind, io_bind, Requests.get. rewrite Hnet.
  rewrite split_app by done. simpl fst.
  rewrite makedirs_existing by done.
  rewrite open_write_in_directory by done.
  erewrite write_loop_ok; [|by apply lookup_insert_eq|done].
  rewrite iter_content_join, app_empty_l.
  unfold with_files. simpl. by rewrite insert_insert_eq.
Qed.

Lemma download_file_into_directory_witness :
  download_file "http://host/data.bin" "/d/data.bin" web_world =
    (Return tt,
     with_files web_world (<["/d/data.bin" := "0123456789"]> (files web_world))).
Proof.
  apply (download_file_into_directory web_world _ "/d" "data.bin" "0123456789");
    done.
Defined.

End DownloadInto.

(** ** [to_camel_case] and [create_truncated_string], composed *)

Section TextComposition.

Lemma split_not_nil (sep : ascii) (s : string) : Str.split sep s ≠ [].
Proof.
  destruct s as [|c s]; [done|]. simpl.
  destruct (Ascii.eqb c sep); [done|]. by destruct (Str.split sep s).
Qed.

Lemma split_app_sep (sep : ascii) (a b : string) :
  Str.split sep (a +:+ String sep b) = Str.split sep a ++ Str.split sep b.
Proof.
  induction a as [|c a IH].
  - rewrite app_empty_l. simpl. by rewrite Ascii.eqb_refl.
  - rewrite app_cons. simpl. rewrite IH.
    destruct (Ascii.eqb c sep); [done|].
    pose proof (split_not_nil sep a).
    by destruct (Str.split sep a).
Qed.

Lemma join_empty_app (xs ys : list string) :
  Str.join "" (xs ++ ys) = Str.join "" xs +:+ Str.join "" ys.
Proof.
  induction xs as [|x xs IH]; [done|].
  by rewrite <- app_comm_cons, !join_empty_cons, IH, app_assoc.
Qed.

Lemma camel_case_hyphen (a b : string) :
  camel_case_ascii (a +:+ "-" +:+ b) = camel_case_ascii a +:+ camel_case_ascii b.
Proof.
  unfold camel_case_ascii.
  change ("-" +:+ b) with (String "-" b).
  rewrite lower_app.
  change (Str.lower_ascii (String "-" b)) with (String "-" (Str.lower_ascii b)).
  by rewrite split_app_sep, map_app, join_empty_app.
Qed.

(** For ASCII texts, a hyphen between two texts is where the camel case of
    the first ends and that of the second begins. *)
Theorem to_camel_case_hyphen (a b : string) :
  Str.is_ascii a = true → Str.is_ascii b = true →
  ∃ camel_a camel_b : string,
    to_camel_case a = Some camel_a ∧
    to_camel_case b = Some camel_b ∧
    to_camel_case (a +:+ "-" +:+ b) = Some (camel_a +:+ camel_b).
Proof.
  intros Ha Hb. exists (camel_case_ascii a), (camel_case_ascii b).
  assert (Str.is_ascii (a +:+ "-" +:+ b) = true) as Hab.
  { change ("-" +:+ b) with (String "-" b).
    rewrite is_ascii_app. simpl. by rewrite Ha, Hb. }
  by rewrite !to_camel_case_ascii, camel_case_hyphen by done.
Qed.

Lemma to_camel_case_hyphen_witness :
  (Str.is_ascii "vehicle-app" = true ∧ Str.is_ascii "SDK" = true) ∧
  ∃ camel_a camel_b : string,
    to_camel_case "vehicle-app" = Some camel_a ∧
    to_camel_case "SDK" = Some camel_b ∧
    to_camel_case ("vehicle-app" +:+ "-" +:+ "SDK") = Some (camel_a +:+ camel_b).
Proof.
  split; [by split|].
  apply (to_camel_case_hyphen "vehicle-app" "SDK"); reflexivity.
Defined.


(** For a [length] above 3, the result holds [length] characters at most,
    and truncating it again changes nothing. *)
Theorem truncate_idempotent (s : string) (length : Z) :
  3 < length →
  Str.len (create_truncated_string s length) = Z.min (Str.len s) length ∧
  create_truncated_string (create_truncated_string s length) length
    = create_truncated_string s length.
Proof.
  intros H3. destruct (Z.lt_ge_cases (Str.len s) length) as [Hs|Hs].
  - rewrite !truncate_short by (by rewrite ?truncate_short). split; [lia|done].
  - destruct (truncate_tail s length H3 Hs) as (front & back & Hfb & Hb & Hr & Hl).
    split; [lia|].
    destruct (truncate_tail (create_truncated_string s length) length)
      as (front' & back' & Hfb' & Hb' & Hr' & _); [lia..|].
    rewrite Hr'. rewrite Hr in Hfb' |- *.
    assert (String.length "..." = String.length front') as Hlen.
    { apply (f_equal Str.len) in Hfb'. rewrite !len_app in Hfb'.
      unfold Str.len in *. lia. }
    by destruct (app_inj_length _ _ _ _ Hfb' Hlen) as [_ ->].
Qed.

Lemma truncate_idempotent_witness :
  3 < 6 ∧
  Str.len (create_truncated_string "abcdefghij" 6) = Z.min (Str.len "abcdefghij") 6 ∧
  create_truncated_string (create_truncated_string "abcdefghij" 6) 6
    = create_truncated_string "abcdefghij" 6.
Proof. split; [done|]. apply (truncate_idempotent "abcdefghij" 6). done. Defined.

End TextComposition.

(** ** [get_valid_arch]: the results are canonical *)

Section ArchCanonical.

(** What [get_valid_arch] returns is one of its two names, and it maps each
    of them to itself. *)
Theorem get_valid_arch_canonical (arch name : string) :
  get_valid_arch arch = Return name →
  (name = "x86_64" ∨ name = "aarch64") ∧ get_valid_arch name = Return name.
Proof.
  unfold get_valid_arch at 1.
  destruct (Str.contains "x86_64" arch || Str.contains "amd64" arch).
  - intros [= <-]. split; [by left|done].
  - destruct (Str.contains "aarch64" arch || Str.contains "arm64" arch); [|done].
    intros [= <-]. split; [by right|done].
Qed.

Lemma get_valid_arch_canonical_witness :
  get_valid_arch "linux/arm64/v8" = Return "aarch64" ∧
  ("aarch64" = "x86_64" ∨ "aarch64" = "aarch64") ∧
  get_valid_arch "aarch64" = Return "aarch64".
Proof.
  split; [done|].
  apply (get_valid_arch_canonical "linux/arm64/v8" "aarch64"). done.
Defined.

End ArchCanonical.

(** ** [capture_textfile_area]: regions *)

Section CaptureRegions.

Variables (start_line end_line : string) (map_fn : option (string → string)).

Local Abbreviation step := (capture_step start_line end_line map_fn).

(** What the loop has gathered so far has no part in what it does next. *)
Lemma capture_step_content (content : list string) (flag : bool) (line : string) :
  step (CaptureState content flag) line =
    CaptureState
      (content ++ area_content (step (CaptureState [] flag) line))
      (is_capturing (step (CaptureState [] flag) line)).
Proof.
  unfold capture_step. simpl.
  destruct (String.eqb (Str.strip line) start_line); simpl;
    [by rewrite app_nil_r|].
  destruct (String.eqb (Str.strip line) end_line); simpl;
    [by rewrite app_nil_r|].
  destruct flag; simpl; [done|by rewrite app_nil_r].
Qed.

Lemma capture_fold_content (file : list string) (content : list string)
    (flag : bool) :
  fold_left step file (CaptureState content flag) =
    CaptureState
      (content ++ area_content (fold_left step file (CaptureState [] flag)))
      (is_capturing (fold_left step file (CaptureState [] flag))).
Proof.
  revert content flag. induction file as [|line file IH]; intros content flag.
  - simpl. by rewrite app_nil_r.
  - simpl. rewrite capture_step_content.
    destruct (step (CaptureState [] flag) line) as [gathered flag'].
    rewrite IH, (IH gathered). simpl.
    by rewrite (assoc_L (++)).
Qed.

(** Lines before the first start marker give nothing. *)
Lemma capture_loop_without_start (file : list string) :
  Forall (λ line, Str.strip line ≠ start_line) file →
  capture_loop start_line end_line map_fn file = CaptureState [] false.
Proof.
  unfold capture_loop.
  induction 1 as [|line file Hline _ IH]; [done|].
  simpl. unfold capture_step at 2. simpl.
  apply String.eqb_neq in Hline. rewrite Hline.
  by destruct (String.eqb (Str.strip line) end_line).
Qed.

(** After an end marker the loop is where it began, but for what it has
    gathered. *)
Lemma capture_loop_after_end (before : list string) (marker : string)
    (rest : list string) :
  start_line ≠ end_line → Str.strip marker = end_line →
  capture_textfile_area (before ++ marker :: rest) start_line end_line map_fn =
    capture_textfile_area before start_line end_line map_fn ++
    capture_textfile_area rest start_line end_line map_fn.
Proof.
  intros Hne Hm. unfold capture_textfile_area, capture_loop.
  rewrite fold_left_app. simpl.
  set (st := fold_left step before (CaptureState [] false)).
  assert (step st marker = CaptureState (area_content st) false) as ->.
  { unfold capture_step. rewrite Hm.
    destruct (String.eqb_spec end_line start_line); [congruence|].
    by rewrite String.eqb_refl. }
  by rewrite capture_fold_content.
Qed.

End CaptureRegions.

(** In a file without a start marker nothing is captured. *)
Theorem capture_without_start_marker (file : list string)
    (start_line end_line : string) (map_fn : option (string → string)) :
  Forall (λ line, Str.strip line ≠ start_line) file →
  capture_textfile_area file start_line end_line map_fn = [].
Proof.
  intros H. unfold capture_textfile_area.
  by rewrite capture_loop_without_start.
Qed.

Lemma capture_without_start_marker_witness :
  capture_textfile_area ["a"; "END"; "b"] "START" "END" None = [].
Proof.
  apply capture_without_start_marker.
  repeat constructor; by vm_compute.
Defined.

(** An end marker closes what came before: the result for the whole file is
    the result for the lines before it followed by the result for the lines
    after it, when the two markers differ. *)
Theorem capture_end_marker_splits (before : list string) (marker : string)
    (rest : list string) (start_line end_line : string)
    (map_fn : option (string → string)) :
  start_line ≠ end_line → Str.strip marker = end_line →
  capture_textfile_area (before ++ marker :: rest) start_line end_line map_fn =
    capture_textfile_area before start_line end_line map_fn ++
    capture_textfile_area rest start_line end_line map_fn.
Proof. apply capture_loop_after_end. Qed.

Lemma capture_end_marker_splits_witness :
  capture_textfile_area (["S"; "a"] ++ "E" :: ["S"; "b"]) "S" "E" None =
    capture_textfile_area ["S"; "a"] "S" "E" None ++
    capture_textfile_area ["S"; "b"] "S" "E" None.
Proof. apply capture_end_marker_splits; by vm_compute. Defined.

(** A region: after lines without a start marker, a start marker, lines that
    are no markers, and an end marker, the result is those lines (as they
    are emitted) and then the result for the rest of the file. *)
Theorem capture_closed_region (pre body rest : list string)
    (start_marker end_marker : string) (start_line end_line : string)
    (map_fn : option (string → string)) :
  start_line ≠ end_line →
  Forall (λ line, Str.strip line ≠ start_line) pre →
  Str.strip start_marker = start_line →
  Forall (λ line, Str.strip line ≠ start_line ∧ Str.strip line ≠ end_line) body →
  Str.strip end_marker = end_line →
  capture_textfile_area (pre ++ start_marker :: body ++ end_marker :: rest)
                        start_line end_line map_fn =
    map (emitted map_fn) body ++
    capture_textfile_area rest start_line end_line map_fn.
Proof.
  intros Hne Hpre Hs Hbody He.
  change (pre ++ start_marker :: body ++ end_marker :: rest)
    with (pre ++ (start_marker :: body) ++ end_marker :: rest).
  rewrite (assoc_L (++)), capture_loop_after_end by done. f_equal.
  rewrite capture_open_region;
    [|done|by eapply Forall_impl; [exact Hbody|]; intros ? []].
  unfold capture_textfile_area at 1. rewrite capture_loop_without_start by done.
  simpl. f_equal.
  clear -Hbody. induction Hbody as [|line body [Hl _] _ IH]; [done|].
  by rewrite filter_cons_True, IH.
Qed.

Lemma capture_closed_region_witness :
  capture_textfile_area (["x"] ++ " START " :: ["a  "; "b"] ++ "END" :: ["c"])
                        "START" "END" (Some Str.lower_ascii) =
    map (emitted (Some Str.lower_ascii)) ["a  "; "b"] ++
    capture_textfile_area ["c"] "START" "END" (Some Str.lower_ascii).
Proof.
  apply capture_closed_region; try by vm_compute.
  - repeat constructor; by vm_compute.
  - repeat constructor; by vm_compute.
Defined.

(** ** [replace_in_file]: a text that does not occur, a file that is missing *)

Section ReplaceAbsent.

Lemma occurs_in_app_l (needle a b : string) :
  occurs_in needle a → occurs_in needle (a +:+ b).
Proof.
  intros (before & after & ->). exists before, (after +:+ b).
  by rewrite !app_assoc.
Qed.

Lemma occurs_in_app_r (needle a b : string) :
  occurs_in needle b → occurs_in needle (a +:+ b).
Proof.
  intros (before & after & ->). exists (a +:+ before), after.
  by rewrite !app_assoc.
Qed.

(** [str.replace] of a text that does not occur gives the string back. *)
Lemma replace_absent (old new s : string) :
  old ≠ EmptyString → Str.contains old s = false → Str.replace old new s = s.
Proof.
  intros Hold. induction s as [|c s IH]; intros H.
  - by destruct old.
  - rewrite contains_unfold in H. apply orb_false_iff in H as [Hp Hs].
    by rewrite replace_elsewhere, IH.
Qed.

Lemma lines_without (text content : string) :
  Str.contains text content = false →
  Forall (λ line, Str.contains text line = false) (Fs.lines content).
Proof.
  rewrite <- (lines_join content) at 1.
  induction (Fs.lines content) as [|line lines IH]; [constructor|].
  rewrite join_empty_cons. intros H%contains_false. constructor.
  - apply contains_false. intros Hl. by apply H, occurs_in_app_l.
  - apply IH, contains_false. intros Hl. by apply H, occurs_in_app_r.
Qed.

(** What [replace_in_file] does to a file that exists and decodes, on a
    device that does not fail. *)
Lemma replace_in_file_written (w : world)
    (file_path text replacement content : string) :
  files w !! file_path = Some content → Utf8.valid content = true →
  writes_left w = None →
  replace_in_file file_path text replacement w =
    (Return tt,
     with_files w
       (<[file_path := Str.join "" (rewritten_lines text replacement content)]>
          (files w))).
Proof.
  intros Hf Hv Hw. rewrite (replace_in_file_loop w _ _ _ content Hf Hv).
  erewrite write_loop_ok; [|by apply lookup_insert_eq|done].
  unfold with_files. simpl. by rewrite insert_insert_eq, app_empty_l.
Qed.

(** A file of UTF-8 text without a carriage return, in which the text to
    find does not occur, is left as it was, and so is all the rest.  The
    text to find and the replacement are given by their UTF-8 bytes, as the
    content is. *)
Theorem replace_in_file_absent (w : world)
    (file_path text replacement content : string) :
  files w !! file_path = Some content → writes_left w = None →
  Utf8.valid content = true →
  Utf8.valid text = true → Utf8.valid replacement = true →
  text ≠ EmptyString →
  Str.has_char Fs.CR content = false →
  Str.contains text content = false →
  replace_in_file file_path text replacement w = (Return tt, w).
Proof.
  intros Hf Hw Hv _ _ Htext Hcr Habsent.
  rewrite (replace_in_file_written w _ _ _ content Hf Hv Hw).
  unfold rewritten_lines. rewrite universal_newlines_without_cr by done.
  assert (map (Str.replace text replacement) (Fs.lines content)
          = Fs.lines content) as ->.
  { pose proof (lines_without text content Habsent) as H.
    induction H as [|line lines Hl _ IH]; [done|].
    simpl. by rewrite replace_absent, IH. }
  rewrite lines_join, insert_id by done. by destruct w.
Qed.

Lemma replace_in_file_absent_witness :
  replace_in_file "f.txt" "xyz" "r" lf_world = (Return tt, lf_world).
Proof. apply (replace_in_file_absent lf_world _ _ _ lf_content); done. Defined.



(** The three errors, in a workspace with a log file. *)
Example replace_in_file_ex_missing :
  replace_in_file "/ws/logs/rt/none.log" "a" "b" log_world
    = (Raise (FileNotFoundError "/ws/logs/rt/none.log"), log_world) ∧
  replace_in_file "/ws/logs/rt/" "a" "b" log_world
    = (Raise (IsADirectoryError "/ws/logs/rt/"), log_world) ∧
  replace_in_file "/ws/logs/rt/svc.log/" "a" "b" log_world
    = (Raise (NotADirectoryError "/ws/logs/rt/svc.log/"), log_world) ∧
  replace_in_file "/ws/logs/rt/svc.log/x/y" "a" "b" log_world
    = (Raise (NotADirectoryError "/ws/logs/rt/svc.log/x/y"), log_world).
Proof. by vm_compute. Qed.

(** A file that is not UTF-8 text is left as it is: the call fails while the
    file is read, before it is opened for writing. *)
Theorem replace_in_file_undecodable (w : world)
    (file_path text replacement content : string) :
  files w !! file_path = Some content → Utf8.valid content = false →
  replace_in_file file_path text replacement w
    = (Raise (UnicodeDecodeError "utf-8"), w).
Proof.
  intros Hf Hv.
  unfold replace_in_file, mbind, io_bind, Fs.open_read. by rewrite Hf, Hv.
Qed.

Lemma replace_in_file_undecodable_witness :
  (files latin_world !! "f.txt" = Some latin_content ∧
   Utf8.valid latin_content = false) ∧
  replace_in_file "f.txt" "a" "b" latin_world
    = (Raise (UnicodeDecodeError "utf-8"), latin_world).
Proof.
  split; [by split|].
  apply (replace_in_file_undecodable latin_world "f.txt" "a" "b" latin_content);
    reflexivity.
Defined.

End ReplaceAbsent.

(** ** What the JSON accessors return, and when the variable is not set *)

Section Accessors.

(** What [get_app_manifest] and [get_cache_data] return is an object. *)
Theorem json_accessors_return_objects (env : environ) (v : Json.value) :
  (get_app_manifest env = Return v → Json.is_dict v = true) ∧
  (get_cache_data env = Return v → Json.is_dict v = true).
Proof.
  split.
  - unfold get_app_manifest.
    destruct (require_env env "VELOCITAS_APP_MANIFEST") as [text|]; [|done].
    simpl. destruct (Json.loads text) as [data|]; [|done]. simpl.
    destruct (Json.is_dict data) eqn:Hd; [by intros [= <-]|].
    destruct data as [| | | | |items|]; try done.
    destruct (list_getitem items 0) as [first|]; [|done]. simpl.
    destruct (Json.is_dict first) eqn:Hf; [|done]. by intros [= <-].
  - unfold get_cache_data.
    destruct (require_env env "VELOCITAS_CACHE_DATA") as [text|]; [|done].
    simpl. destruct (Json.loads text) as [data|]; [|done]. simpl.
    destruct (Json.is_dict data) eqn:Hd; [|done]. by intros [= <-].
Qed.

Lemma json_accessors_return_objects_witness :
  get_app_manifest
    (<["VELOCITAS_APP_MANIFEST" := "[{" +:+ quoted "a" +:+ ":1}]"]> ∅)
    = Return (Json.VDict [("a", Json.VInt 1)]) ∧
  Json.is_dict (Json.VDict [("a", Json.VInt 1)]) = true.
Proof.
  split; [reflexivity|].
  apply (proj1 (json_accessors_return_objects
                  (<["VELOCITAS_APP_MANIFEST" := "[{" +:+ quoted "a" +:+ ":1}]"]> ∅)
                  (Json.VDict [("a", Json.VInt 1)]))).
  reflexivity.
Defined.

(** With its variable unset or empty, each accessor fails with the
    [ValueError] of [require_env] that names the variable: an empty text is
    not given to the JSON decoder, and [create_log_file] touches nothing. *)
Theorem accessors_without_variable (env : environ) :
  (falsy (env !! "VELOCITAS_APP_MANIFEST") = true →
   get_app_manifest env =
     Raise (ValueError "Environment variable 'VELOCITAS_APP_MANIFEST' not set!")) ∧
  (falsy (env !! "VELOCITAS_CACHE_DATA") = true →
   get_cache_data env =
     Raise (ValueError "Environment variable 'VELOCITAS_CACHE_DATA' not set!")) ∧
  (falsy (env !! "VELOCITAS_WORKSPACE_DIR") = true →
   ∀ service_id runtime_id,
     get_log_file_name env service_id runtime_id =
       Raise (ValueError "Environment variable 'VELOCITAS_WORKSPACE_DIR' not set!") ∧
     ∀ w, create_log_file env service_id runtime_id w =
       (Raise (ValueError "Environment variable 'VELOCITAS_WORKSPACE_DIR' not set!"),
        w)).
Proof.
  split; [|split].
  - intros H. unfold get_app_manifest, require_env, Os.getenv. by rewrite H.
  - intros H. unfold get_cache_data, require_env, Os.getenv. by rewrite H.
  - intros H service_id runtime_id.
    assert (get_log_file_name env service_id runtime_id =
      Raise (ValueError "Environment variable 'VELOCITAS_WORKSPACE_DIR' not set!"))
      as Hname.
    { unfold get_log_file_name, get_workspace_dir, require_env, Os.getenv.
      by rewrite H. }
    split; [done|]. intros w. unfold create_log_file. by rewrite Hname.
Qed.

Lemma accessors_without_variable_witness :
  get_app_manifest (<["VELOCITAS_APP_MANIFEST" := EmptyString]> ∅) =
    Raise (ValueError "Environment variable 'VELOCITAS_APP_MANIFEST' not set!").
Proof.
  apply (proj1 (accessors_without_variable
                  (<["VELOCITAS_APP_MANIFEST" := EmptyString]> ∅))).
  reflexivity.
Defined.

End Accessors.

(** ** Directories that are missing *)

Section MissingDirectories.

Lemma path_under_snoc (dir : string) (comps : list string) (name : string) :
  path_under dir (comps ++ [name]) = path_under dir comps +:+ String "/" name.
Proof. unfold path_under. by rewrite fold_left_app. Qed.

Lemma chain_snoc (dir : string) (comps : list string) (name : string) :
  chain dir (comps ++ [name]) =
    chain dir comps ++ [path_under dir (comps ++ [name])].
Proof.
  revert dir. induction comps as [|c comps IH]; intros dir; [done|].
  simpl. by rewrite IH.
Qed.

Lemma endswith_name (name : string) :
  Str.has_char "/" name = false → Str.endswith_char "/" name = false.
Proof.
  intros H. destruct (Str.endswith_char "/" name) eqn:He; [|done].
  apply endswith_has_char in He. congruence.
Qed.

(** A path under a directory is no empty path and does not end with a
    separator. *)
Lemma path_under_shape (dir : string) (comps : list string) :
  dir ≠ EmptyString → Str.endswith_char "/" dir = false →
  Forall is_name comps →
  path_under dir comps ≠ EmptyString ∧
  Str.endswith_char "/" (path_under dir comps) = false.
Proof.
  intros Hd He Hc.
  induction comps as [|name comps IH] using rev_ind; [done|].
  apply Forall_app in Hc as [Hc Hn]. inversion_clear Hn as [|? ? (Hn1 & Hn2 & _ & _) _].
  rewrite path_under_snoc. split.
  - apply String.eqb_neq, app_not_empty. done.
  - rewrite endswith_char_app, endswith_char_cons by done.
    by apply endswith_name.
Qed.

Lemma chain_lengths (dir : string) (comps : list string) :
  Forall (λ p, (String.length p ≤ String.length (path_under dir comps))%nat)
         (chain dir comps).
Proof.
  induction comps as [|name comps IH] using rev_ind; [constructor|].
  rewrite chain_snoc, path_under_snoc. apply Forall_app. split.
  - eapply Forall_impl; [exact IH|]. intros p Hp. simpl in *.
    rewrite length_app. lia.
  - by repeat constructor.
Qed.

Lemma chain_last (dir : string) (comps : list string) :
  comps ≠ [] → path_under dir comps ∈ chain dir comps.
Proof.
  destruct comps as [|name comps _] using rev_ind; [done|]. intros _.
  rewrite chain_snoc. apply elem_of_app. right. by apply list_elem_of_singleton.
Qed.

Lemma chain_not_below (dir : string) (comps : list string) (name : string) :
  path_under dir comps +:+ String "/" name ∉ chain dir comps.
Proof.
  intros Hin. pose proof (chain_lengths dir comps) as H.
  rewrite Forall_forall in H. apply H in Hin.
  rewrite length_app in Hin. simpl in Hin. lia.
Qed.

(** Directories that are added hide none that was there. *)
Lemma isdir_more (w : world) (more : gset string) (p : string) :
  Fs.isdir w p = true → Fs.isdir (with_dirs w (more ∪ dirs w)) p = true.
Proof.
  unfold Fs.isdir. simpl. intros [H|H]%orb_true_iff; [by rewrite H|].
  apply andb_true_iff in H as [H1 H2]. rewrite H1. simpl.
  apply bool_decide_eq_true in H2.
  rewrite bool_decide_true by (apply elem_of_union; by right).
  apply orb_true_r.
Qed.

Lemma isdir_added (w : world) (more : gset string) (p : string) :
  p ≠ EmptyString → Str.endswith_char "/" p = false → p ∈ more →
  Fs.isdir (with_dirs w (more ∪ dirs w)) p = true.
Proof.
  intros Hp He Hin. unfold Fs.isdir. simpl.
  apply String.eqb_neq in Hp. rewrite Hp, norm_id by done. simpl.
  rewrite bool_decide_true by (apply elem_of_union; by left).
  apply orb_true_r.
Qed.

Lemma exists_not_added (w : world) (more : gset string) (p : string) :
  p ≠ EmptyString → Str.endswith_char "/" p = false → p ∉ more →
  Fs.exists_ w p = false →
  Fs.exists_ (with_dirs w (more ∪ dirs w)) p = false.
Proof.
  intros Hp He Hin. unfold Fs.exists_, Fs.isdir, Fs.isfile. simpl.
  rewrite norm_id by done.
  intros H. apply orb_false_iff in H as [H Hf].
  apply orb_false_iff in H as [Hr Hd]. rewrite Hr, Hf.
  apply String.eqb_neq in Hp. rewrite Hp in *. simpl in *.
  apply bool_decide_eq_false in Hd.
  rewrite bool_decide_false; [done|].
  by intros [?|?]%elem_of_union.
Qed.

(** One turn of [os.makedirs]. *)
Lemma makedirs_go_unfold (fuel : nat) (name : string) (w : world) :
  Fs.makedirs_go (S fuel) name w =
    (let '(head, tail) := PosixPath.split name in
     let '(head, tail) :=
       if String.eqb tail EmptyString then PosixPath.split head else (head, tail) in
     let above : bool :=
       negb (String.eqb head EmptyString) && negb (String.eqb tail EmptyString)
       && negb (Fs.exists_ w head) in
     let '(r, w1) :=
       if above then
         match Fs.makedirs_go fuel head w with
         | (Raise (FileExistsError _), w') => (Return tt, w')
         | other => other
         end
       else (Return tt, w) in
     match r with
     | Raise e => (Raise e, w1)
     | Return _ =>
         if above && String.eqb tail "." then (Return tt, w1)
         else
           match Fs.mkdir name w1 with
           | (Raise e, w2) =>
               if Fs.isdir w2 name then (Return tt, w2) else (Raise e, w2)
           | done => done
           end
     end).
Proof. reflexivity. Qed.

(** [os.makedirs] of a path under a directory that exists, when none of the
    directories on the way exists: all of them are made, and nothing else
    changes. *)
Lemma makedirs_go_missing (comps : list string) (dir : string) (w : world)
    (fuel : nat) :
  dir ≠ EmptyString → Str.endswith_char "/" dir = false →
  Fs.isdir w dir = true →
  Forall is_name comps →
  Forall (λ p, Fs.exists_ w p = false) (chain dir comps) →
  comps ≠ [] → (length comps ≤ fuel)%nat →
  Fs.makedirs_go fuel (path_under dir comps) w =
    (Return tt, with_dirs w (list_to_set (chain dir comps) ∪ dirs w)).
Proof.
  intros Hd He Hdir. revert fuel.
  induction comps as [|name comps IH] using rev_ind; [done|].
  intros fuel Hnames Hmissing _ Hfuel.
  apply Forall_app in Hnames as [Hnames Hname].
  inversion_clear Hname as [|? ? (Hn1 & Hn2 & Hn3 & _) _].
  rewrite chain_snoc in Hmissing. apply Forall_app in Hmissing as [Hmissing Hlast].
  inversion_clear Hlast as [|? ? Hlast' _]. rewrite path_under_snoc in Hlast'.
  destruct (path_under_shape dir comps Hd He Hnames) as [Hp Hpe].
  rewrite List.length_app in Hfuel. simpl in Hfuel.
  destruct fuel as [|fuel]; [lia|].
  rewrite chain_snoc, !path_under_snoc, makedirs_go_unfold.
  set (parent := path_under dir comps) in *.
  set (w1 := with_dirs w (list_to_set (chain dir comps) ∪ dirs w)).
  rewrite split_app by done.
  apply String.eqb_neq in Hn1 as Hn1'. rewrite Hn1'.
  apply String.eqb_neq in Hn3 as Hn3'. rewrite Hn3'.
  apply String.eqb_neq in Hp as Hp'. rewrite Hp'.
  cbv beta iota zeta. rewrite andb_false_r.
  rewrite ?Hn1', ?Hn3', ?Hp'.
  match goal with
  | |- context [if negb false && negb false && ?c then ?a else ?b] =>
      assert ((if negb false && negb false && c then a else b)
              = (Return tt, w1)) as ->
  end.
  { destruct (decide (comps = [])) as [->|Hne].
    - unfold parent, w1. simpl.
      unfold Fs.exists_. rewrite Hdir. simpl.
      rewrite (left_id_L ∅ (∪)). by destruct w.
    - pose proof (chain_last dir comps Hne) as Hin.
      pose proof (proj1 (Forall_forall _ _) Hmissing _ Hin) as Hex.
      fold parent in Hex. rewrite Hex. simpl.
      rewrite IH by (done || lia). done. }
  assert (Str.endswith_char "/" (parent +:+ String "/" name) = false) as Hne.
  { rewrite endswith_char_app, endswith_char_cons by done.
    by apply endswith_name. }
  assert (parent +:+ String "/" name ≠ EmptyString) as Hnn
    by (by apply String.eqb_neq, app_not_empty).
  unfold Fs.mkdir.
  rewrite (proj2 (String.eqb_neq _ _) Hnn).
  assert (Fs.exists_ w1 (parent +:+ String "/" name) = false) as ->.
  { apply exists_not_added; try done.
    intros Hin%elem_of_list_to_set. by apply chain_not_below in Hin. }
  assert (Fs.parent_ok w1 (parent +:+ String "/" name) = true) as ->.
  { unfold Fs.parent_ok, PosixPath.dirname.
    rewrite norm_id, split_app by done. simpl. rewrite Hp'. simpl.
    destruct (decide (comps = [])) as [->|Hcs].
    - by apply isdir_more.
    - apply isdir_added; try done.
      apply elem_of_list_to_set. by apply chain_last. }
  rewrite norm_id by done. f_equal.
  unfold w1, with_dirs. simpl. f_equal.
  apply set_eq. intros p.
  rewrite !elem_of_union, !elem_of_list_to_set, elem_of_app,
    list_elem_of_singleton, elem_of_singleton.
  tauto.
Qed.


Lemma path_under_length (dir : string) (comps : list string) :
  (length comps ≤ String.length (path_under dir comps))%nat.
Proof.
  induction comps as [|name comps IH] using rev_ind; [simpl; lia|].
  rewrite path_under_snoc, List.length_app, length_app. simpl. lia.
Qed.

Lemma makedirs_missing (comps : list string) (dir : string) (w : world) :
  dir ≠ EmptyString → Str.endswith_char "/" dir = false →
  Fs.isdir w dir = true →
  Forall is_name comps →
  Forall (λ p, Fs.exists_ w p = false) (chain dir comps) →
  comps ≠ [] →
  Fs.makedirs (path_under dir comps) w =
    (Return tt, with_dirs w (list_to_set (chain dir comps) ∪ dirs w)).
Proof.
  intros. apply makedirs_go_missing; try done.
  pose proof (path_under_length dir comps). lia.
Qed.

Lemma isdir_not_added (w : world) (more : gset string) (p : string) :
  p ≠ EmptyString → Str.endswith_char "/" p = false → p ∉ more →
  Fs.isdir w p = false →
  Fs.isdir (with_dirs w (more ∪ dirs w)) p = false.
Proof.
  intros Hp He Hin. unfold Fs.isdir. simpl. rewrite norm_id by done.
  intros H. apply orb_false_iff in H as [Hr Hd]. rewrite Hr.
  apply String.eqb_neq in Hp. rewrite Hp in *. simpl in *.
  apply bool_decide_eq_false in Hd.
  rewrite bool_decide_false; [done|].
  by intros [?|?]%elem_of_union.
Qed.

(** The two steps that [download_file] and [create_log_file] share: the
    directory of the file is made, with the directories above it that are
    missing, and the file is opened for writing, which leaves it empty. *)
Lemma makedirs_then_open (dir : string) (comps : list string) (name : string)
    (w : world) :
  dir ≠ EmptyString → Str.endswith_char "/" dir = false →
  Fs.isdir w dir = true →
  Forall is_name comps →
  Forall (λ p, Fs.exists_ w p = false) (chain dir comps) →
  comps ≠ [] →
  is_name name →
  Fs.isdir w (path_under dir comps +:+ String "/" name) = false →
  (_ ← Fs.makedirs (path_under dir comps);
   Fs.open_write (path_under dir comps +:+ String "/" name)) w =
    (Return (path_under dir comps +:+ String "/" name),
     World (<[path_under dir comps +:+ String "/" name := EmptyString]> (files w))
           (list_to_set (chain dir comps) ∪ dirs w)
           (network w) (writes_left w)).
Proof.
  intros Hd He Hdir Hnames Hmissing Hne (Hn1 & Hn2 & _ & _) Hnodir.
  destruct (path_under_shape dir comps Hd He Hnames) as [Hp Hpe].
  unfold mbind, io_bind. rewrite makedirs_missing by done.
  rewrite open_write_in_directory; try done.
  - apply isdir_added; try done. apply elem_of_list_to_set. by apply chain_last.
  - apply isdir_not_added; try done.
    + by apply String.eqb_neq, app_not_empty.
    + rewrite endswith_char_app, endswith_char_cons by done.
      by apply endswith_name.
    + intros Hin%elem_of_list_to_set. by apply chain_not_below in Hin.
Qed.

End MissingDirectories.

(** ** [download_file] and [create_log_file]: the directories they make *)

Section MakesDirectories.

(** For a local path below a directory that exists, through directories
    none of which exists, [download_file] makes these directories and leaves
    the body of the answer in the file; nothing else changes. *)
Theorem download_file_makes_directories (w : world) (uri body dir : string)
    (comps : list string) (name : string) :
  network w !! uri = Some body → writes_left w = None →
  dir ≠ EmptyString → Str.endswith_char "/" dir = false →
  Fs.isdir w dir = true →
  comps ≠ [] → Forall is_name comps →
  Forall (λ p, Fs.exists_ w p = false) (chain dir comps) →
  is_name name →
  Fs.isdir w (path_under dir comps +:+ "/" +:+ name) = false →
  download_file uri (path_under dir comps +:+ "/" +:+ name) w =
    (Return tt,
     World (<[path_under dir comps +:+ "/" +:+ name := body]> (files w))
           (list_to_set (chain dir comps) ∪ dirs w)
           (network w) None).
Proof.
  intros Hnet Hw Hd He Hdir Hne Hnames Hmissing Hname Hnodir.
  change ("/" +:+ name) with (String "/" name) in *.
  destruct (path_under_shape dir comps Hd He Hnames) as [Hp Hpe].
  pose proof Hname as (Hn1 & Hn2 & _ & _).
  pose proof (makedirs_then_open dir comps name w Hd He Hdir Hnames Hmissing
                Hne Hname Hnodir) as Hopen.
  unfold mbind, io_bind in Hopen.
  unfold download_file, mbind, io_bind, Requests.get. rewrite Hnet.
  rewrite split_app by done. simpl fst.
  destruct (Fs.makedirs (path_under dir comps) w) as [[[]|e] w1]; [|done].
  rewrite Hopen.
  erewrite write_loop_ok; [|by apply lookup_insert_eq|done].
  rewrite iter_content_join, app_empty_l.
  unfold with_files. simpl. by rewrite insert_insert_eq, Hw.
Qed.


Lemma startswith_has_char (s : string) :
  Str.has_char "/" s = false → Str.startswith "/" s = false.
Proof.
  intros H. destruct (Str.startswith "/" s) eqn:Hs; [|done].
  apply prefix_spec in Hs as [after ->]. done.
Qed.

(** The name of the log file, for a workspace directory that does not end
    with a separator and ids that are names. *)
Lemma log_file_name_under (env : environ) (workspace_dir service_id runtime_id : string) :
  env !! "VELOCITAS_WORKSPACE_DIR" = Some workspace_dir →
  workspace_dir ≠ EmptyString → Str.endswith_char "/" workspace_dir = false →
  is_name runtime_id → Str.has_char "/" service_id = false →
  get_log_file_name env service_id runtime_id =
    Return (path_under workspace_dir ["logs"; runtime_id]
            +:+ String "/" (service_id +:+ ".log")).
Proof.
  intros Henv Hws Hwe (Hr1 & Hr2 & _ & _) Hsvc.
  assert (get_log_file_name env service_id runtime_id =
            Return (PosixPath.join workspace_dir
                      ["logs"; runtime_id; service_id +:+ ".log"])) as ->.
  { unfold get_log_file_name, get_workspace_dir.
    by rewrite (require_env_set env _ workspace_dir Henv Hws). }
  f_equal.
  rewrite join_log_file_name by (done || by apply startswith_has_char).
  unfold with_sep. rewrite Hwe, (endswith_name runtime_id Hr2).
  apply String.eqb_neq in Hws, Hr1. rewrite Hws, Hr1. simpl.
  unfold path_under. simpl. by rewrite !app_assoc.
Qed.

Lemma log_name_is_name (service_id : string) :
  Str.has_char "/" service_id = false → is_name (service_id +:+ ".log").
Proof.
  intros H. split; [|split; [|split]].
  - by destruct service_id.
  - by rewrite has_char_app, H.
  - intros Heq. apply (f_equal String.length) in Heq.
    rewrite length_app in Heq. simpl in Heq. lia.
  - intros Heq. apply (f_equal String.length) in Heq.
    rewrite length_app in Heq. simpl in Heq. lia.
Qed.

(** In a workspace directory that exists and has no [logs] yet,
    [create_log_file] makes [logs] and the directory of the runtime in it,
    and returns the log file, which is empty; nothing else changes. *)
Theorem create_log_file_makes_directories (env : environ) (w : world)
    (workspace_dir service_id runtime_id : string) :
  env !! "VELOCITAS_WORKSPACE_DIR" = Some workspace_dir →
  workspace_dir ≠ EmptyString → Str.endswith_char "/" workspace_dir = false →
  Fs.isdir w workspace_dir = true →
  is_name runtime_id → Str.has_char "/" service_id = false →
  Fs.exists_ w (workspace_dir +:+ "/logs") = false →
  Fs.exists_ w (workspace_dir +:+ "/logs/" +:+ runtime_id) = false →
  Fs.isdir w (workspace_dir +:+ "/logs/" +:+ runtime_id +:+ "/"
              +:+ service_id +:+ ".log") = false →
  create_log_file env service_id runtime_id w =
    (Return (workspace_dir +:+ "/logs/" +:+ runtime_id +:+ "/"
             +:+ service_id +:+ ".log"),
     World (<[workspace_dir +:+ "/logs/" +:+ runtime_id +:+ "/"
              +:+ service_id +:+ ".log" := EmptyString]> (files w))
           ({[workspace_dir +:+ "/logs";
              workspace_dir +:+ "/logs/" +:+ runtime_id]} ∪ dirs w)
           (network w) (writes_left w)).
Proof.
  intros Henv Hws Hwe Hdir Hrt Hsvc Hlogs Hrun Hnodir.
  assert (workspace_dir +:+ "/logs/" +:+ runtime_id
          = path_under workspace_dir ["logs"; runtime_id]) as Hp
    by (unfold path_under; simpl; by rewrite !app_assoc).
  assert (workspace_dir +:+ "/logs/" +:+ runtime_id +:+ "/" +:+ service_id +:+ ".log"
          = path_under workspace_dir ["logs"; runtime_id]
            +:+ String "/" (service_id +:+ ".log")) as Hfile
    by (unfold path_under; simpl; by rewrite !app_assoc).
  rewrite Hfile in *. rewrite Hp in *.
  assert (Forall is_name ["logs"; runtime_id]) as Hnames.
  { constructor; [by repeat split|]. constructor; [done|]. constructor. }
  destruct (path_under_shape workspace_dir ["logs"; runtime_id] Hws Hwe Hnames)
    as [Hpn Hpe].
  pose proof (log_name_is_name service_id Hsvc) as Hname.
  pose proof Hname as (Hn1 & Hn2 & _ & _).
  unfold create_log_file.
  rewrite (log_file_name_under env workspace_dir) by done.
  unfold PosixPath.dirname. 
  assert (PosixPath.split (path_under workspace_dir ["logs"; runtime_id]
                           +:+ String "/" (service_id +:+ ".log"))
          = (path_under workspace_dir ["logs"; runtime_id],
             service_id +:+ ".log")) as -> by (by apply split_app).
  simpl fst.
  rewrite (makedirs_then_open workspace_dir ["logs"; runtime_id]); try done.
  - f_equal. f_equal. simpl. unfold path_under. simpl.
    apply set_eq. intros p.
    rewrite !elem_of_union, !elem_of_singleton, elem_of_empty. tauto.
  - simpl. constructor; [exact Hlogs|]. constructor; [exact Hrun|]. constructor.
Qed.


(** With the directory of the runtime in place, and for ids of the same
    kind (a runtime id that is a name, a service id without a separator),
    [create_log_file] makes no directory: it returns the log file, emptied
    if it was there, and nothing else changes. *)
Theorem create_log_file_existing_directory (env : environ) (w : world)
    (workspace_dir service_id runtime_id : string) :
  env !! "VELOCITAS_WORKSPACE_DIR" = Some workspace_dir →
  workspace_dir ≠ EmptyString → Str.endswith_char "/" workspace_dir = false →
  is_name runtime_id → Str.has_char "/" service_id = false →
  Fs.isdir w (workspace_dir +:+ "/logs") = true →
  Fs.isdir w (workspace_dir +:+ "/logs/" +:+ runtime_id) = true →
  Fs.isdir w (workspace_dir +:+ "/logs/" +:+ runtime_id +:+ "/"
              +:+ service_id +:+ ".log") = false →
  create_log_file env service_id runtime_id w =
    (Return (workspace_dir +:+ "/logs/" +:+ runtime_id +:+ "/"
             +:+ service_id +:+ ".log"),
     with_files w
       (<[workspace_dir +:+ "/logs/" +:+ runtime_id +:+ "/"
          +:+ service_id +:+ ".log" := EmptyString]> (files w))).
Proof.
  intros Henv Hws Hwe Hrt Hsvc Hlogs Hrun Hnodir.
  assert (workspace_dir +:+ "/logs/" +:+ runtime_id
          = path_under workspace_dir ["logs"; runtime_id]) as Hp
    by (unfold path_under; simpl; by rewrite !app_assoc).
  assert (workspace_dir +:+ "/logs/" +:+ runtime_id +:+ "/" +:+ service_id +:+ ".log"
          = path_under workspace_dir ["logs"; runtime_id]
            +:+ String "/" (service_id +:+ ".log")) as Hfile
    by (unfold path_under; simpl; by rewrite !app_assoc).
  rewrite Hfile in *. rewrite Hp in *.
  assert (Forall is_name ["logs"; runtime_id]) as Hnames.
  { constructor; [by repeat split|]. constructor; [done|]. constructor. }
  destruct (path_under_shape workspace_dir ["logs"; runtime_id] Hws Hwe Hnames)
    as [Hpn Hpe].
  pose proof Hrt as (Hr1 & Hr2 & _ & _).
  pose proof (log_name_is_name service_id Hsvc) as (Hn1 & Hn2 & _ & _).
  unfold create_log_file.
  rewrite (log_file_name_under env workspace_dir) by done.
  unfold PosixPath.dirname, mbind, io_bind.
  rewrite split_app by done. simpl fst.
  rewrite makedirs_existing; try done.
  - by rewrite open_write_in_directory.
  - unfold Fs.parent_ok, PosixPath.dirname. rewrite norm_id by done.
    change (path_under workspace_dir ["logs"; runtime_id])
      with ((workspace_dir +:+ "/logs") +:+ String "/" runtime_id).
    rewrite split_app; try done.
    + simpl. rewrite Hlogs. apply orb_true_r.
    + by apply String.eqb_neq, app_not_empty.
    + by rewrite endswith_char_app.
Qed.


Lemma download_file_makes_directories_witness :
  download_file "http://host/data.bin"
                (path_under "/d" ["new"; "sub"] +:+ "/" +:+ "data.bin") web_world =
    (Return tt,
     World (<[path_under "/d" ["new"; "sub"] +:+ "/" +:+ "data.bin" := "0123456789"]>
              (files web_world))
           (list_to_set (chain "/d" ["new"; "sub"]) ∪ dirs web_world)
           (network web_world) None).
Proof.
  apply (download_file_makes_directories web_world _ "0123456789" "/d"
           ["new"; "sub"] "data.bin"); try done.
  - constructor; [by repeat split|]. constructor; [by repeat split|]. constructor.
  - constructor; [by vm_compute|]. constructor; [by vm_compute|]. constructor.
Defined.

Lemma create_log_file_makes_directories_witness :
  create_log_file (<["VELOCITAS_WORKSPACE_DIR" := "/d"]> ∅) "svc" "rt" web_world =
    (Return "/d/logs/rt/svc.log",
     World (<["/d/logs/rt/svc.log" := EmptyString]> (files web_world))
           ({["/d/logs"; "/d/logs/rt"]} ∪ dirs web_world)
           (network web_world) (writes_left web_world)).
Proof.
  apply (create_log_file_makes_directories
           (<["VELOCITAS_WORKSPACE_DIR" := "/d"]> ∅) web_world "/d" "svc" "rt");
    done.
Defined.

Lemma create_log_file_existing_directory_witness :
  create_log_file (<["VELOCITAS_WORKSPACE_DIR" := "/ws"]> ∅) "svc" "rt" log_world =
    (Return "/ws/logs/rt/svc.log",
     with_files log_world
       (<["/ws/logs/rt/svc.log" := EmptyString]> (files log_world))).
Proof.
  apply (create_log_file_existing_directory
           (<["VELOCITAS_WORKSPACE_DIR" := "/ws"]> ∅) log_world "/ws" "svc" "rt");
    done.
Defined.

End MakesDirectories.

(** ** [download_file]: when the request or a write fails *)

Section DownloadFailures.

(** When the request fails, nothing is made and nothing is written. *)
Theorem download_file_request_failure (w : world) (uri local_file_path : string) :
  network w !! uri = None →
  download_file uri local_file_path w = (Raise (ConnectionError uri), w).
Proof.
  intros H. unfold download_file, mbind, io_bind, Requests.get. by rewrite H.
Qed.

Lemma download_file_request_failure_witness :
  download_file "http://host/none" "/d/data.bin" web_world
    = (Raise (ConnectionError "http://host/none"), web_world).
Proof. apply download_file_request_failure. done. Defined.

(** When the device has room for less than the body, [download_file] fails
    and leaves in the file the part of the body that the device had room
    for. *)
Theorem download_file_partial (w : world) (uri dir name body : string)
    (room : nat) :
  network w !! uri = Some body →
  writes_left w = Some room →
  (room < String.length body)%nat →
  dir ≠ EmptyString → Str.endswith_char "/" dir = false →
  Fs.isdir w dir = true → Fs.parent_ok w dir = true →
  is_name name →
  Fs.isdir w (dir +:+ "/" +:+ name) = false →
  download_file uri (dir +:+ "/" +:+ name) w =
    (Raise (OSError "No space left on device"),
     World (<[dir +:+ "/" +:+ name := Str.take room body]> (files w))
           (dirs w) (network w) (Some 0%nat)).
Proof.
  intros Hnet Hw Hroom Hd He Hdir Hparent (Hn1 & Hn2 & _ & _) Hnodir.
  change ("/" +:+ name) with (String "/" name) in *.
  unfold download_file, mbind, io_bind, Requests.get. rewrite Hnet.
  rewrite split_app by done. simpl fst.
  rewrite makedirs_existing by done.
  rewrite open_write_in_directory by done.
  erewrite write_loop_room; [|by apply lookup_insert_eq|done].
  rewrite iter_content_join.
  destruct (Nat.leb_spec (String.length body) room); [lia|].
  unfold with_files, with_writes_left. simpl.
  rewrite insert_insert_eq, app_empty_l. do 3 f_equal. lia.
Qed.

Lemma download_file_partial_witness :
  download_file "http://host/data.bin" ("/d" +:+ "/" +:+ "data.bin")
                (with_writes_left web_world (Some 4%nat)) =
    (Raise (OSError "No space left on device"),
     World (<["/d" +:+ "/" +:+ "data.bin" := Str.take 4 "0123456789"]>
              (files web_world))
           (dirs web_world) (network web_world) (Some 0%nat)).
Proof.
  apply (download_file_partial (with_writes_left web_world (Some 4%nat))
           _ "/d" "data.bin" "0123456789" 4); try done.
  simpl. lia.
Defined.

End DownloadFailures.

(** ** [get_log_file_name]: ids that are absolute paths *)

Section LogFileNameAbsolute.

Lemma join2_absolute (path b : string) :
  Str.startswith "/" b = true → PosixPath.join2 path b = b.
Proof. intros H. unfold PosixPath.join2. by rewrite H. Qed.

Lemma startswith_nonempty (s : string) :
  Str.startswith "/" s = true → s ≠ EmptyString.
Proof. by destruct s. Qed.

Lemma get_log_file_name_joined (env : environ)
    (workspace_dir service_id runtime_id : string) :
  get_workspace_dir env = Return workspace_dir →
  get_log_file_name env service_id runtime_id =
    Return (PosixPath.join2
              (PosixPath.join2 (PosixPath.join2 workspace_dir "logs") runtime_id)
              (service_id +:+ ".log")).
Proof. intros H. unfold get_log_file_name. by rewrite H. Qed.

Lemma log_file_name_absolute (env : environ)
    (workspace_dir service_id runtime_id : string) :
  get_workspace_dir env = Return workspace_dir →
  (Str.startswith "/" service_id = true →
   get_log_file_name env service_id runtime_id = Return (service_id +:+ ".log")) ∧
  (Str.startswith "/" service_id = false →
   Str.startswith "/" runtime_id = true →
   get_log_file_name env service_id runtime_id =
     Return (with_sep runtime_id +:+ service_id +:+ ".log")).
Proof.
  intros Hws. rewrite (get_log_file_name_joined env workspace_dir) by done.
  split.
  - intros Hsvc. by rewrite join2_absolute by (by rewrite startswith_sep_log).
  - intros Hsvc Hrt. rewrite (join2_absolute _ runtime_id) by done.
    by rewrite join2_relative
      by (by apply startswith_nonempty || by rewrite startswith_sep_log).
Qed.

(** With an id that starts with a separator the name of the log file is
    made of the ids alone, whatever the workspace directory is: a
    [service_id] of that kind is the whole path, with [.log] at its end,
    and a [runtime_id] of that kind is the directory of the log file. *)
Theorem get_log_file_name_absolute (env : environ)
    (workspace_dir service_id runtime_id : string) :
  get_workspace_dir env = Return workspace_dir →
  (Str.startswith "/" service_id = true →
   get_log_file_name env service_id runtime_id = Return (service_id +:+ ".log")) ∧
  (Str.startswith "/" service_id = false →
   Str.startswith "/" runtime_id = true →
   get_log_file_name env service_id runtime_id =
     Return (with_sep runtime_id +:+ service_id +:+ ".log")).
Proof. apply log_file_name_absolute. Qed.

Lemma get_log_file_name_absolute_witness :
  get_log_file_name (<["VELOCITAS_WORKSPACE_DIR" := "/ws"]> ∅) "/etc/passwd" "rt"
    = Return "/etc/passwd.log".
Proof.
  assert (get_workspace_dir (<["VELOCITAS_WORKSPACE_DIR" := "/ws"]> ∅)
          = Return "/ws") as Hws by reflexivity.
  apply (proj1 (get_log_file_name_absolute _ "/ws" "/etc/passwd" "rt" Hws)).
  reflexivity.
Defined.

Lemma has_char_startswith (s : string) :
  Str.startswith "/" s = true → Str.has_char "/" s = true.
Proof. intros [after ->]%prefix_spec. done. Qed.

Lemma with_sep_has_sep (s : string) :
  s ≠ EmptyString → Str.has_char "/" (with_sep s) = true.
Proof.
  intros Hs. unfold with_sep. apply String.eqb_neq in Hs. rewrite Hs. simpl.
  destruct (Str.endswith_char "/" s) eqn:He.
  - by apply endswith_has_char.
  - rewrite has_char_app. apply orb_true_r.
Qed.

(** The directory part of a path that holds a separator is not empty. *)
Lemma rpartition_head (p : string) :
  Str.has_char "/" p = true → (PosixPath.rpartition p).1 ≠ EmptyString.
Proof.
  destruct p as [|c p]; [done|]. simpl.
  destruct (Str.has_char "/" p).
  - by destruct (PosixPath.rpartition p).
  - unfold PosixPath.is_sep. by destruct (Ascii.eqb c "/").
Qed.

Lemma rstrip_sep_empty (s : string) :
  Str.rstrip_by PosixPath.is_sep s = EmptyString → PosixPath.all_seps s = true.
Proof.
  induction s as [|c s IH]; [done|]. simpl.
  destruct (Str.rstrip_by PosixPath.is_sep s); [|done].
  destruct (PosixPath.is_sep c); [|done]. intros _. by rewrite IH.
Qed.

Lemma dirname_not_empty (p : string) :
  Str.has_char "/" p = true → PosixPath.dirname p ≠ EmptyString.
Proof.
  intros H. pose proof (rpartition_head p H) as Hh.
  unfold PosixPath.dirname, PosixPath.split.
  destruct (PosixPath.rpartition p) as [head tail]. simpl in Hh.
  apply String.eqb_neq in Hh as Hh'. rewrite Hh'. simpl.
  destruct (PosixPath.all_seps head) eqn:Ha; simpl; [done|].
  intros He%rstrip_sep_empty. congruence.
Qed.

(** The name of a log file always has a directory part, so that
    [create_log_file] never asks [os.makedirs] for the empty path. *)
Theorem get_log_file_name_has_directory (env : environ)
    (service_id runtime_id log_file_name : string) :
  get_log_file_name env service_id runtime_id = Return log_file_name →
  Str.has_char "/" log_file_name = true ∧
  PosixPath.dirname log_file_name ≠ EmptyString.
Proof.
  intros H.
  assert (Str.has_char "/" log_file_name = true) as Hsep;
    [|split; [done|by apply dirname_not_empty]].
  destruct (get_workspace_dir env) as [workspace_dir|e] eqn:Hws;
    [|by unfold get_log_file_name in H; rewrite Hws in H].
  assert (workspace_dir ≠ EmptyString) as Hne.
  { intros ->. unfold get_workspace_dir, require_env in Hws.
    destruct (Os.getenv env "VELOCITAS_WORKSPACE_DIR") as [[|]|]; simpl in Hws;
      congruence. }
  destruct (Str.startswith "/" service_id) eqn:Hsvc.
  - rewrite (proj1 (log_file_name_absolute env workspace_dir
                      service_id runtime_id Hws) Hsvc) in H.
    injection H as <-. rewrite has_char_app, has_char_startswith by done. done.
  - destruct (Str.startswith "/" runtime_id) eqn:Hrt.
    + rewrite (proj2 (log_file_name_absolute env workspace_dir
                        service_id runtime_id Hws) Hsvc Hrt) in H.
      injection H as <-.
      rewrite has_char_app, with_sep_has_sep; [done|].
      by apply startswith_nonempty.
    + unfold get_log_file_name in H. rewrite Hws in H.
      assert (log_file_name = PosixPath.join workspace_dir
                                ["logs"; runtime_id; service_id +:+ ".log"])
        as -> by (by injection H).
      rewrite join_log_file_name by done.
      rewrite has_char_app, with_sep_has_sep by done. done.
Qed.

Lemma get_log_file_name_has_directory_witness :
  Str.has_char "/" "ws/logs/rt/svc.log" = true ∧
  PosixPath.dirname "ws/logs/rt/svc.log" ≠ EmptyString.
Proof.
  apply (get_log_file_name_has_directory
           (<["VELOCITAS_WORKSPACE_DIR" := "ws"]> ∅) "svc" "rt").
  reflexivity.
Defined.

End LogFileNameAbsolute.
